(** * terminal-render: the [Window] framebuffer and its renderer

    A shallow embedding of [termrender/window.py] ([src/window.py] is an
    earlier draft of the same class that stops after [initialize]).  The
    class keeps its state in class attributes, so every method is a
    computation over one shared [World]: the attributes of [Window], the
    tables of [Palette] and what has been written to the terminal.  An
    exception leaves the attributes as they were when it was raised, so a
    computation returns the world in both outcomes.

    Integers are [Z], with Python's shifts, masks and remainder
    ([Z.shiftl], [Z.shiftr], [Z.land], [Z.modulo] agree with [<<], [>>],
    [&], [%] on every sign); a [str] is its list of code points; a [list]
    is a [list], read and written through subscripts that raise
    [IndexError] out of range. *)

From Stdlib Require Import ZArith NArith Lia List Ascii String DecimalString Decimal.
From stdpp Require Import base list numbers.

Local Open Scope Z_scope.

(** * The program *)

(** ** Python values *)

(** A Python [str] is a sequence of Unicode code points. *)
Definition str := list Z.

(** An ASCII literal of the source. *)
Definition lit (s : string) : str :=
  (fun a => Z.of_N (N_of_ascii a)) <$> list_ascii_of_string s.

(** ['\33'] is an octal escape: code point 27. *)
Definition ESC : str := [27].

(** ['█'], U+2588 FULL BLOCK. *)
Definition BLOCK : str := [0x2588].

(** [' '] *)
Definition SPACE : str := [32].

Inductive exn :=
| NotImplementedError
| IndexError
| ZeroDivisionError
| ValueError
| TypeError
| OverflowError.

Inductive result (A : Type) :=
| Ok (a : A)
| Raise (e : exn).
Arguments Ok {A} a.
Arguments Raise {A} e.

(** The decimal digits of an [int], with its sign. *)
Definition decimal (n : Z) : str := lit (NilZero.string_of_int (Z.to_int n)).

(** [sys.get_int_max_str_digits()]: the limit CPython (3.11 and later)
    puts on the digits of an [int] it converts to a decimal string, 4300
    unless it is changed. *)
Definition int_max_str_digits : Z := 4300.

(** An [int] of at most [int_max_str_digits] decimal digits, the sign not
    counted. *)
Definition formattable (n : Z) : bool := Z.abs n <? 10 ^ int_max_str_digits.

(** [str(n)] and the [{n}] of an f-string, for an [int]: a [ValueError]
    for an [int] of more than [int_max_str_digits] digits. *)
Definition str_of_int (n : Z) : result str :=
  if formattable n then Ok (decimal n) else Raise ValueError.

(** [chr(n)]: a one-character string; [OverflowError] when [n] does not
    fit a C [int], [ValueError] when it does and is outside the Unicode
    range. *)
Definition chr (n : Z) : result str :=
  if (n <? - 2 ^ 31) || (2 ^ 31 - 1 <? n) then Raise OverflowError
  else if (0 <=? n) && (n <=? 0x10FFFF) then Ok [n]
  else Raise ValueError.

(** [range(start, stop, step)] for a positive [step]. *)
Definition range (start stop step : Z) : list Z :=
  (fun k => start + step * k) <$> seqZ 0 ((stop - start + step - 1) `div` step).

(** The position a subscript [i] denotes in a list of length [n]:
    a negative subscript counts from the end. *)
Definition subscript (n i : Z) : option nat :=
  let j := if i <? 0 then i + n else i in
  if (0 <=? j) && (j <? n) then Some (Z.to_nat j) else None.

(** [l[i]] *)
Definition getitem {A} (l : list A) (i : Z) : result A :=
  match subscript (Z.of_nat (length l)) i with
  | Some j => match l !! j with Some x => Ok x | None => Raise IndexError end
  | None => Raise IndexError
  end.

(** [l[i] = v] *)
Definition setitem {A} (l : list A) (i : Z) (v : A) : result (list A) :=
  match subscript (Z.of_nat (length l)) i with
  | Some j => Ok (<[j := v]> l)
  | None => Raise IndexError
  end.

(** [a % b] on [int]s. *)
Definition py_mod (a b : Z) : result Z :=
  if b =? 0 then Raise ZeroDivisionError else Ok (a `mod` b).

(** ** [Mode] *)

Module Mode.
(** Modelled from the spec: [types.py] is not among the sources.  The
    spec gives [Mode] as a set of orthogonal flags, combinable bitwise,
    drawn from [bw], [high_res], [monochrome], [palette4], [palette8];
    full color is the absence of the indexed flags.  Each flag is one
    bit, in the order the spec lists them; a mode is a bit mask. *)
Definition t := N.

Definition bw : t := 1%N.
Definition high_res : t := 2%N.
Definition monochrome : t := 4%N.
Definition palette4 : t := 8%N.
Definition palette8 : t := 16%N.

(** [a & b] *)
Definition and_ (a b : t) : t := N.land a b.
(** [a | b] *)
Definition or_ (a b : t) : t := N.lor a b.
(** Truth value of a mode: some flag is set. *)
Definition bool_ (a : t) : bool := negb (a =? 0)%N.

(** [mode & flag] as a condition. *)
Definition has (flag mode : t) : bool := bool_ (and_ mode flag).
End Mode.

(** ** [Palette] *)

Module Palette.
(** Modelled from the spec: [palette.py] is not among the sources.  The
    spec gives three fixed ordered sequences of color-escape strings and
    leaves their content out; they are data of the world. *)
Record t := {
  monochrome : list str;
  palette4 : list str;
  palette8 : list str
}.
End Palette.

(** ** The state *)

(** The class attributes of [Window]. *)
Record Window := {
  _mode : option Mode.t;
  _terminal_width : Z;
  _terminal_height : Z;
  _width : Z;
  _height : Z;
  _disp_buffer : list Z;
  palette : list str
}.

(** What reaches the terminal. *)
Inductive event :=
| System_clear          (* os.system('cls' if os.name == 'nt' else 'clear') *)
| Stdout (s : str).     (* print(s, end='', flush=True) *)

Record World := {
  window : Window;
  tables : Palette.t;
  terminal : list event
}.

(** The class body: the attributes before any call.  The terminal size is
    queried once; on [OSError] it is taken to be 120x30. *)
Definition class_body (get_terminal_size : option (Z * Z)) : Window :=
  let '(columns, lines) :=
    match get_terminal_size with
    | Some size => size
    | None => (120, 30)
    end in
  {| _mode := None;
     _terminal_width := columns;
     _terminal_height := lines;
     _width := columns;
     _height := lines;
     _disp_buffer := [];
     palette := [] |}.

(** ** Computations *)

Definition M (A : Type) : Type := World -> World * result A.

Definition ret {A} (a : A) : M A := fun s => (s, Ok a).

Definition bind {A B} (m : M A) (k : A -> M B) : M B :=
  fun s =>
    match m s with
    | (s', Ok a) => k a s'
    | (s', Raise e) => (s', Raise e)
    end.

Definition raise {A} (e : exn) : M A := fun s => (s, Raise e).

Definition lift {A} (r : result A) : M A := fun s => (s, r).

Declare Scope py_scope.
Delimit Scope py_scope with py.
Notation "x <- m ;; k" := (bind m (fun x => k))
  (at level 100, m at next level, right associativity) : py_scope.
Notation "m ;; k" := (bind m (fun _ => k))
  (at level 100, right associativity) : py_scope.
Local Open Scope py_scope.

(** Reading a class attribute. *)
Definition getattr {A} (f : Window -> A) : M A := fun s => (s, Ok (f (window s))).

(** [copy(Palette.<table>)] *)
Definition table (f : Palette.t -> list str) : M (list str) :=
  fun s => (s, Ok (f (tables s))).

Definition with_window (f : Window -> Window) : M unit :=
  fun s => ({| window := f (window s); tables := tables s; terminal := terminal s |}, Ok tt).

Definition set_mode (v : option Mode.t) : M unit :=
  with_window (fun w =>
    {| _mode := v; _terminal_width := _terminal_width w;
       _terminal_height := _terminal_height w; _width := _width w;
       _height := _height w; _disp_buffer := _disp_buffer w; palette := palette w |}).

Definition set_width (v : Z) : M unit :=
  with_window (fun w =>
    {| _mode := _mode w; _terminal_width := _terminal_width w;
       _terminal_height := _terminal_height w; _width := v;
       _height := _height w; _disp_buffer := _disp_buffer w; palette := palette w |}).

Definition set_height (v : Z) : M unit :=
  with_window (fun w =>
    {| _mode := _mode w; _terminal_width := _terminal_width w;
       _terminal_height := _terminal_height w; _width := _width w;
       _height := v; _disp_buffer := _disp_buffer w; palette := palette w |}).

Definition set_disp_buffer (v : list Z) : M unit :=
  with_window (fun w =>
    {| _mode := _mode w; _terminal_width := _terminal_width w;
       _terminal_height := _terminal_height w; _width := _width w;
       _height := _height w; _disp_buffer := v; palette := palette w |}).

Definition set_palette (v : list str) : M unit :=
  with_window (fun w =>
    {| _mode := _mode w; _terminal_width := _terminal_width w;
       _terminal_height := _terminal_height w; _width := _width w;
       _height := _height w; _disp_buffer := _disp_buffer w; palette := v |}).

Definition emit (e : event) : M unit :=
  fun s => ({| window := window s; tables := tables s; terminal := terminal s ++ [e] |}, Ok tt).

(** [print(s, end='', flush=True)].  The stream is taken to encode every
    string it is given.  A strict UTF-8 stream refuses a lone surrogate
    (U+D800 to U+DFFF) with a [UnicodeEncodeError] and writes nothing; of
    the characters [update] computes only those of a braille frame drawn
    from pixel values other than 0 and 1 can be surrogates, and what is
    stated of such frames leaves the surrogates out. *)
Definition print (s : str) : M unit := emit (Stdout s).

(** [cls._mode & flag]; [None & flag] is a [TypeError]. *)
Definition mode_and (flag : Mode.t) : M Mode.t :=
  m <- getattr _mode ;;
  match m with
  | Some m => ret (Mode.and_ m flag)
  | None => raise TypeError
  end.

(** [for x in xs: body], threading the local variables [acc]. *)
Fixpoint for_in {A L} (xs : list A) (body : L -> A -> M L) (acc : L) : M L :=
  match xs with
  | [] => ret acc
  | x :: xs' => acc' <- body acc x ;; for_in xs' body acc'
  end.

(** ** [Window.initialize] (window.py, lines 63-97) *)

Definition initialize (mode : Mode.t) : M unit :=
  set_mode (Some mode) ;;
  (if negb (Mode.bool_ (Mode.and_ mode Mode.bw)) && Mode.bool_ (Mode.and_ mode Mode.high_res)
   then raise NotImplementedError
   else ret tt) ;;
  tw <- getattr _terminal_width ;;
  set_width (if negb (Mode.bool_ (Mode.and_ mode Mode.high_res)) then tw else tw * 2) ;;
  th <- getattr _terminal_height ;;
  set_height (if negb (Mode.bool_ (Mode.and_ mode Mode.high_res)) then th else th * 4) ;;
  w <- getattr _width ;;
  h <- getattr _height ;;
  set_disp_buffer ((fun _ => 0) <$> range 0 (w * h) 1) ;;
  mono <- mode_and Mode.monochrome ;;
  (if Mode.bool_ mono then
     p <- table Palette.monochrome ;; set_palette p
   else
     p4 <- mode_and Mode.palette4 ;;
     if Mode.bool_ p4 then
       p <- table Palette.palette4 ;; set_palette p
     else
       p8 <- mode_and Mode.palette8 ;;
       if Mode.bool_ p8 then
         p <- table Palette.palette8 ;; set_palette p
       else
         set_palette []) ;;
  emit System_clear ;;
  print (ESC ++ lit "[?25l").

(** ** [Window.plot] (lines 99-109) *)

Definition plot (x y val : Z) : M unit :=
  w <- getattr _width ;;
  h <- getattr _height ;;
  if (0 <? x) && (x <? w) && ((0 <? y) && (y <? h)) then
    buf <- getattr _disp_buffer ;;
    w' <- getattr _width ;;
    buf' <- lift (setitem buf (x + y * w') val) ;;
    set_disp_buffer buf'
  else ret tt.

(** ** [Window.copy_buffer] (lines 111-123)

    [copy(buf)] gives the class a list of its own: no later change of the
    caller's list reaches the buffer, so the buffer is held by value. *)

Definition copy_buffer (buf : list Z) : M unit :=
  w <- getattr _width ;;
  h <- getattr _height ;;
  (if negb (Z.of_nat (length buf) =? w * h) then raise IndexError else ret tt) ;;
  set_disp_buffer buf.

(** ** [Window.clear] (lines 125-132) *)

Definition clear : M unit :=
  w <- getattr _width ;;
  h <- getattr _height ;;
  set_disp_buffer ((fun _ => 0) <$> range 0 (w * h) 1).

(** ** [Window.update] (lines 134-190) *)

(** One step of the inner braille loop: the tile whose origin is [(xo, yo)]. *)
Definition braille_tile (yo : Z) (output : str) (xo : Z) : M str :=
  w <- getattr _width ;;
  let idx := xo + yo * w in
  buf <- getattr _disp_buffer ;;
  b0 <- lift (getitem buf idx) ;;
  b1 <- lift (getitem buf (idx + 1)) ;;
  b2 <- lift (getitem buf (idx + w)) ;;
  b3 <- lift (getitem buf (idx + 1 + w)) ;;
  b4 <- lift (getitem buf (idx + w * 2)) ;;
  b5 <- lift (getitem buf (idx + 1 + w * 2)) ;;
  b6 <- lift (getitem buf (idx + w * 3)) ;;
  b7 <- lift (getitem buf (idx + 1 + w * 3)) ;;
  let braille :=
    b0 + Z.shiftl b1 3 +
    Z.shiftl b2 1 + Z.shiftl b3 4 +
    Z.shiftl b4 2 + Z.shiftl b5 5 +
    Z.shiftl b6 6 + Z.shiftl b7 7 in
  c <- lift (chr (braille + 0x2800)) ;;
  ret (output ++ c).

(** One step of the outer braille loop: the row of tiles at [yo]. *)
Definition braille_row (output : str) (yo : Z) : M str :=
  w <- getattr _width ;;
  for_in (range 0 w 2) (braille_tile yo) output.

(** One step of the indexed loop; the locals are [(output, prev_val)]. *)
Definition indexed_pixel (locals : str * Z) (val : Z) : M (str * Z) :=
  let output := fst locals in
  let prev_val := snd locals in
  pal <- getattr palette ;;
  val <- lift (py_mod val (Z.of_nat (length pal))) ;;
  if val =? 0 then
    ret (output ++ SPACE, prev_val)
  else if negb (val =? prev_val) then
    pal <- getattr palette ;;
    code <- lift (getitem pal val) ;;
    ret (output ++ (code ++ BLOCK), val)
  else
    ret (output ++ BLOCK, prev_val).

(** [f'\33[38;2;{red};{green};{blue}m█']: the three fields are formatted
    from left to right. *)
Definition truecolor (red green blue : Z) : result str :=
  match str_of_int red with
  | Raise e => Raise e
  | Ok r =>
    match str_of_int green with
    | Raise e => Raise e
    | Ok g =>
      match str_of_int blue with
      | Raise e => Raise e
      | Ok b =>
        Ok (ESC ++ lit "[38;2;" ++ r ++ lit ";" ++ g ++ lit ";" ++ b ++
            lit "m" ++ BLOCK)
      end
    end
  end.

(** One step of the RGB loop; the locals are [(output, prev_val)]. *)
Definition rgb_pixel (locals : str * Z) (val : Z) : M (str * Z) :=
  let output := fst locals in
  let prev_val := snd locals in
  if val =? 0 then
    ret (output ++ SPACE, prev_val)
  else if negb (val =? prev_val) then
    let red := Z.shiftr val 16 in
    let green := Z.land (Z.shiftr val 8) 0xff in
    let blue := Z.land val 0xff in
    text <- lift (truecolor red green blue) ;;
    ret (output ++ text, val)
  else
    ret (output ++ BLOCK, prev_val).

(** The cursor-home sequence ['\33[H'] every frame starts with. *)
Definition HOME : str := ESC ++ lit "[H".

Definition update : M unit :=
  let output := HOME in
  bw <- mode_and Mode.bw ;;
  output <-
    (if Mode.bool_ bw then
       hr <- mode_and Mode.high_res ;;
       if negb (Mode.bool_ hr) then
         buf <- getattr _disp_buffer ;;
         ret (output ++ concat ((fun x => if x =? 0 then SPACE else BLOCK) <$> buf))
       else
         h <- getattr _height ;;
         for_in (range 0 h 4) braille_row output
     else
       ix <- mode_and (Mode.or_ (Mode.or_ Mode.monochrome Mode.palette4) Mode.palette8) ;;
       if Mode.bool_ ix then
         buf <- getattr _disp_buffer ;;
         locals <- for_in buf indexed_pixel (output, -1) ;;
         ret (fst locals)
       else
         buf <- getattr _disp_buffer ;;
         locals <- for_in buf rgb_pixel (output, -1) ;;
         ret (fst locals)) ;;
  print output.

(** Running a method from a world: the world it leaves and its outcome. *)
Definition run {A} (m : M A) (s : World) : World * result A := m s.

(** ** The earlier draft ([src/window.py])

    The draft has the same class attributes without the palette, an
    [initialize] that compares modes with [is], and an [update] that is a
    docstring only.  Enum members are unique objects, one per value, so
    [mode is Mode.bw] holds exactly when [mode] is that value. *)

Module Draft.
Definition initialize (mode : Mode.t) : M unit :=
  set_mode (Some mode) ;;
  (if negb (mode =? Mode.bw)%N && (mode =? Mode.high_res)%N
   then raise NotImplementedError
   else ret tt) ;;
  tw <- getattr _terminal_width ;;
  set_width (if negb (mode =? Mode.high_res)%N then tw else tw * 2) ;;
  th <- getattr _terminal_height ;;
  set_height (if negb (mode =? Mode.high_res)%N then th else th * 4) ;;
  w <- getattr _width ;;
  h <- getattr _height ;;
  set_disp_buffer ((fun _ => 0) <$> range 0 (w * h) 1).

Definition update : M unit := ret tt.
End Draft.

(** * Vocabulary of the statements *)

(** ** Worlds and invariants *)

(** The world after one more [print] of [text]. *)
Definition printed (text : str) (s : World) : World :=
  {| window := window s; tables := tables s; terminal := terminal s ++ [Stdout text] |}.

(** The world with the buffer replaced by [buf], all else as it was. *)
Definition with_buffer (buf : list Z) (s : World) : World :=
  {| window :=
       {| _mode := _mode (window s);
          _terminal_width := _terminal_width (window s);
          _terminal_height := _terminal_height (window s);
          _width := _width (window s);
          _height := _height (window s);
          _disp_buffer := buf;
          palette := palette (window s) |};
     tables := tables s;
     terminal := terminal s |}.

(** The world with the mode replaced, all else as it was. *)
Definition with_mode (mode : option Mode.t) (s : World) : World :=
  {| window :=
       {| _mode := mode;
          _terminal_width := _terminal_width (window s);
          _terminal_height := _terminal_height (window s);
          _width := _width (window s);
          _height := _height (window s);
          _disp_buffer := _disp_buffer (window s);
          palette := palette (window s) |};
     tables := tables s;
     terminal := terminal s |}.

(** The buffer holds one value per pixel of the virtual grid. *)
Definition buffer_sized (w : Window) : Prop :=
  Z.of_nat (length (_disp_buffer w)) = _width w * _height w.

(** The terminal has a size: neither dimension is negative. *)
Definition terminal_sized (w : Window) : Prop :=
  0 <= _terminal_width w /\ 0 <= _terminal_height w.

(** ** Initialization *)

(** The condition under which [initialize] gives up. *)
Definition rejected (mode : Mode.t) : bool :=
  negb (Mode.has Mode.bw mode) && Mode.has Mode.high_res mode.

(** One of the indexed color flags is set. *)
Definition color_flag (mode : Mode.t) : bool :=
  Mode.has Mode.monochrome mode || Mode.has Mode.palette4 mode ||
  Mode.has Mode.palette8 mode.

(** The rejection rule in the specification's words: [initialize] gives up
    exactly when [high_res] comes together with a color flag other than
    [bw], and succeeds for every other mode. *)
Definition rejection_as_specified (s : World) (mode : Mode.t) : Prop :=
  (snd (run (initialize mode) s) = Raise NotImplementedError <->
   Mode.has Mode.high_res mode = true /\ color_flag mode = true) /\
  (~ (Mode.has Mode.high_res mode = true /\ color_flag mode = true) ->
   snd (run (initialize mode) s) = Ok tt).

(** The palette [initialize] selects: the first of [monochrome],
    [palette4], [palette8] that is set decides, none gives the empty one. *)
Definition selected_palette (mode : Mode.t) (t : Palette.t) : list str :=
  if Mode.has Mode.monochrome mode then Palette.monochrome t
  else if Mode.has Mode.palette4 mode then Palette.palette4 t
  else if Mode.has Mode.palette8 mode then Palette.palette8 t
  else [].

(** The world a successful [initialize mode] leaves. *)
Definition initialized (mode : Mode.t) (s : World) : World :=
  let tw := _terminal_width (window s) in
  let th := _terminal_height (window s) in
  let w := if Mode.has Mode.high_res mode then tw * 2 else tw in
  let h := if Mode.has Mode.high_res mode then th * 4 else th in
  {| window :=
       {| _mode := Some mode;
          _terminal_width := tw;
          _terminal_height := th;
          _width := w;
          _height := h;
          _disp_buffer := replicate (Z.to_nat (w * h)) 0;
          palette := selected_palette mode (tables s) |};
     tables := tables s;
     terminal := terminal s ++ [System_clear; Stdout (ESC ++ lit "[?25l")] |}.

(** ** Sequences of calls *)

(** What a caller may invoke on the class. *)
Inductive call :=
| Initialize (mode : Mode.t)
| Plot (x y val : Z)
| Copy_buffer (buf : list Z)
| Clear
| Update.

Definition perform (c : call) : M unit :=
  match c with
  | Initialize mode => initialize mode
  | Plot x y val => plot x y val
  | Copy_buffer buf => copy_buffer buf
  | Clear => clear
  | Update => update
  end.

(** The world after a sequence of calls whose exceptions the caller
    catches: every call runs in the world the previous one left. *)
Definition after (calls : list call) (s : World) : World :=
  fold_left (fun s c => fst (run (perform c) s)) calls s.

(** A call that draws or renders: any call but [initialize]. *)
Definition keeps_setup (c : call) : bool :=
  match c with
  | Initialize _ => false
  | _ => true
  end.

(** A call to [plot]. *)
Definition is_plot (c : call) : bool :=
  match c with
  | Plot _ _ _ => true
  | _ => false
  end.

(** ** Rendering as a whole *)

(** A computation that only reads the attributes: it hands back the world
    it was given, and its outcome is the same in any two worlds with the
    same attributes. *)
Definition reads_window {A} (m : M A) : Prop :=
  forall s, fst (m s) = s /\ forall s', window s' = window s -> snd (m s') = snd (m s).

(** What [update] computes before its [print]: the whole string, or the
    exception. *)
Definition update_output : M str :=
  let output := HOME in
  bw <- mode_and Mode.bw ;;
  if Mode.bool_ bw then
    hr <- mode_and Mode.high_res ;;
    if negb (Mode.bool_ hr) then
      buf <- getattr _disp_buffer ;;
      ret (output ++ concat ((fun x => if x =? 0 then SPACE else BLOCK) <$> buf))
    else
      h <- getattr _height ;;
      for_in (range 0 h 4) braille_row output
  else
    ix <- mode_and (Mode.or_ (Mode.or_ Mode.monochrome Mode.palette4) Mode.palette8) ;;
    if Mode.bool_ ix then
      buf <- getattr _disp_buffer ;;
      locals <- for_in buf indexed_pixel (output, -1) ;;
      ret (fst locals)
    else
      buf <- getattr _disp_buffer ;;
      locals <- for_in buf rgb_pixel (output, -1) ;;
      ret (fst locals).

(** ** Black-and-white frames *)

(** The character a pixel becomes in plain black-and-white rendering. *)
Definition bw_glyph (v : Z) : Z := if v =? 0 then 32 else 0x2588.

(** ** Indexed frames *)

(** What one pixel contributes to an indexed frame: a space, the escape
    string of a palette index followed by a block, or a bare block. *)
Inductive cell :=
| Blank
| Colored (index : Z)
| Plain.

Definition cell_text (pal : list str) (c : cell) : str :=
  match c with
  | Blank => [32]
  | Colored i => default [] (pal !! Z.to_nat i) ++ [0x2588]
  | Plain => [0x2588]
  end.

(** The previously emitted nonzero index when the pixels [before] have
    been rendered with a palette of [n] entries: the last of their values
    that is nonzero modulo [n], reduced, and the sentinel -1 when there is
    none. *)
Definition previous_index (n : Z) (before : list Z) : Z :=
  fold_left (fun prev v => if v `mod` n =? 0 then prev else v `mod` n) before (-1).

(** The cell of a pixel of value [val] that comes after the pixels [before]. *)
Definition indexed_cell (n : Z) (before : list Z) (val : Z) : cell :=
  let i := val `mod` n in
  if i =? 0 then Blank
  else if i =? previous_index n before then Plain
  else Colored i.

(** The cells of the pixels [rest] that come after the pixels [before]. *)
Definition cells_from (n : Z) (before rest : list Z) : list cell :=
  imap (fun k val => indexed_cell n (before ++ take k rest) val) rest.

(** The cells of a whole frame. *)
Definition indexed_cells (n : Z) (buf : list Z) : list cell := cells_from n [] buf.

(** The palette indices whose escape strings a frame emits, in order. *)
Definition emitted_indices (cells : list cell) : list Z :=
  omap (fun c => match c with Colored i => Some i | _ => None end) cells.

(** No two neighbours of the list are equal. *)
Fixpoint no_repeat (l : list Z) : Prop :=
  match l with
  | a :: (b :: _) as l' => a <> b /\ no_repeat l'
  | _ => True
  end.

(** A list without the entries that repeat their predecessor, [prev]
    standing before the first. *)
Fixpoint squash (prev : Z) (l : list Z) : list Z :=
  match l with
  | [] => []
  | a :: l' => if a =? prev then squash prev l' else a :: squash a l'
  end.

(** Two pixel values that are the same palette index. *)
Definition same_index (n a b : Z) : Prop := a `mod` n = b `mod` n.

(** ** Full-color frames *)

(** What one pixel contributes to a full-color frame: a space, a
    true-color escape sequence for three components followed by a block,
    or a bare block. *)
Inductive rgb_cell :=
| Dark
| Lit (red green blue : Z)
| Same.

(** The true-color escape sequence of three components, and the block
    after it. *)
Definition escape_text (red green blue : Z) : str :=
  ESC ++ lit "[38;2;" ++ decimal red ++ lit ";" ++ decimal green ++
  lit ";" ++ decimal blue ++ lit "m" ++ BLOCK.

Definition rgb_cell_text (c : rgb_cell) : str :=
  match c with
  | Dark => [32]
  | Lit red green blue => escape_text red green blue
  | Same => [0x2588]
  end.

(** The three components of a cell can be formatted. *)
Definition rgb_cell_formattable (c : rgb_cell) : bool :=
  match c with
  | Lit red green blue => formattable red && formattable green && formattable blue
  | _ => true
  end.

(** The components of every cell can be. *)
Definition rgb_formattable (cells : list rgb_cell) : bool :=
  forallb rgb_cell_formattable cells.

(** The previous nonzero raw value when the pixels [before] have been
    rendered, the sentinel -1 when there is none. *)
Definition previous_value (before : list Z) : Z :=
  fold_left (fun prev v => if v =? 0 then prev else v) before (-1).

(** The red component as [update] computes it. *)
Definition red_shifted (val : Z) : Z := Z.shiftr val 16.

(** The red component in the specification's words: [value >> 16 & 0xFF]. *)
Definition red_masked (val : Z) : Z := Z.land (Z.shiftr val 16) 0xFF.

(** The cell of a pixel of value [val] that comes after the pixels
    [before], for a given decoding of the red component. *)
Definition rgb_cell_of (red : Z -> Z) (before : list Z) (val : Z) : rgb_cell :=
  if val =? 0 then Dark
  else if val =? previous_value before then Same
  else Lit (red val) (Z.land (Z.shiftr val 8) 0xFF) (Z.land val 0xFF).

Definition rgb_cells_from (red : Z -> Z) (before rest : list Z) : list rgb_cell :=
  imap (fun k val => rgb_cell_of red (before ++ take k rest) val) rest.

(** The cells of a whole frame, red decoded by [red]. *)
Definition rgb_cells (red : Z -> Z) (buf : list Z) : list rgb_cell :=
  rgb_cells_from red [] buf.

(** A pixel value is a packed 24-bit color [0xRRGGBB]. *)
Definition packed_rgb (val : Z) : Prop := 0 <= val < 2 ^ 24.

(** The full-color frame in the specification's words: HOME, then for
    every pixel a space for 0 and otherwise the components
    [value >> 16 & 0xFF], [value >> 8 & 0xFF], [value & 0xFF] in the
    escape sequence (or a bare block for a repeated value). *)
Definition rgb_as_specified (s : World) : Prop :=
  run update s =
  (printed (HOME ++ concat (rgb_cell_text <$>
              rgb_cells red_masked (_disp_buffer (window s)))) s, Ok tt).

(** ** Braille frames *)

(** The pixel at column [x], row [y] of a grid of width [w]. *)
Definition sub_pixel (buf : list Z) (w x y : Z) : Z :=
  default 0 (buf !! Z.to_nat (x + y * w)).

(** Truth value of a pixel: any value but 0 is lit. *)
Definition truthy (v : Z) : bool := negb (v =? 0).

(** A pixel that is 0 or 1. *)
Definition is_bit (v : Z) : Prop := v = 0 \/ v = 1.

(** The eight dots of a tile: offset in x, offset in y, bit position. *)
Definition dots : list (Z * Z * Z) :=
  [(0, 0, 0); (1, 0, 3); (0, 1, 1); (1, 1, 4);
   (0, 2, 2); (1, 2, 5); (0, 3, 6); (1, 3, 7)].

(** The byte of the tile with origin [(xo, yo)] in the specification's
    words: the truth value of each of the eight sub-pixels, at the bit
    position of its offset. *)
Definition packed_byte (buf : list Z) (w xo yo : Z) : Z :=
  foldr (fun '(dx, dy, bit) byte =>
           (if truthy (sub_pixel buf w (xo + dx) (yo + dy)) then 2 ^ bit else 0) + byte)
        0 dots.

(** The sum [update] forms for the tile with origin [(xo, yo)]. *)
Definition tile_sum (buf : list Z) (w xo yo : Z) : Z :=
  sub_pixel buf w xo yo + Z.shiftl (sub_pixel buf w (xo + 1) yo) 3 +
  Z.shiftl (sub_pixel buf w xo (yo + 1)) 1 + Z.shiftl (sub_pixel buf w (xo + 1) (yo + 1)) 4 +
  Z.shiftl (sub_pixel buf w xo (yo + 2)) 2 + Z.shiftl (sub_pixel buf w (xo + 1) (yo + 2)) 5 +
  Z.shiftl (sub_pixel buf w xo (yo + 3)) 6 + Z.shiftl (sub_pixel buf w (xo + 1) (yo + 3)) 7.

(** The braille frame in the specification's words: tiles row by row,
    origins stepping by 4 in y and by 2 in x, one character
    [0x2800 + packed_byte] per tile. *)
Definition braille_frame (buf : list Z) (w h : Z) : str :=
  concat ((fun yo =>
    concat ((fun xo => [0x2800 + packed_byte buf w xo yo]) <$> range 0 w 2))
    <$> range 0 h 4).


(** A number that fits a C [int]. *)
Definition fits_int (n : Z) : Prop := - 2 ^ 31 <= n < 2 ^ 31.

(** A code point of Unicode. *)
Definition code_point (n : Z) : Prop := 0 <= n <= 0x10FFFF.






(** The bit of the dot at offset [(dx, dy)] of a tile, as the sum of
    [update] places it: 0, 1, 2 down the left column, 3, 4, 5 down the
    right one, then 6 and 7 in the last row. *)
Definition dot_bit (dx dy : Z) : Z := if dy =? 3 then 6 + dx else dy + 3 * dx.

(** ** Sample worlds *)

(** A sample environment: a 4x2 terminal and small palette tables. *)
Definition sample_tables : Palette.t :=
  {| Palette.monochrome := [lit "[0m"; lit "[1m"];
     Palette.palette4 := [lit "[30m"; lit "[31m"; lit "[32m"; lit "[33m"];
     Palette.palette8 := [lit "[90m"; lit "[91m"; lit "[92m"; lit "[93m";
                          lit "[94m"; lit "[95m"; lit "[96m"; lit "[97m"] |}.

Definition sample_world (columns lines : Z) : World :=
  {| window := class_body (Some (columns, lines));
     tables := sample_tables;
     terminal := [] |}.

(** The world a successful [initialize mode] leaves on a sample terminal,
    with [buf] installed by [copy_buffer] when the length fits. *)
Definition sample_frame (columns lines : Z) (mode : Mode.t) (buf : list Z) : World :=
  fst (run (initialize mode ;; copy_buffer buf) (sample_world columns lines)).

(** A 4x2 black-and-white frame with three lit pixels. *)
Definition sample_bw : World :=
  sample_frame 4 2 Mode.bw [0; 0; 0; 0; 0; 7; 1; 0].

(** A 4x3 black-and-white frame, all pixels dark. *)
Definition sample_dark : World := fst (run (initialize Mode.bw) (sample_world 4 3)).

(** A 2x2 frame in [palette4] mode holding the buffer [[2; 2; 0; 3]]. *)
Definition sample_indexed : World := sample_frame 2 2 Mode.palette4 [2; 2; 0; 3].

(** A 1x1 full-color frame holding pure red. *)
Definition sample_red : World := sample_frame 1 1 0%N [0xFF0000].

(** A 1x1 full-color frame whose pixel has bit 24 set. *)
Definition sample_wide : World := sample_frame 1 1 0%N [0x1000000].

(** A 2x1 full-color frame: a pixel with bit 24 set, then pure red. *)
Definition sample_mixed : World := sample_frame 2 1 0%N [0x1000000; 0xFF0000].

(** One braille cell (a 1x1 terminal in [bw] + [high_res]) holding [buf]. *)
Definition sample_tile (buf : list Z) : World :=
  sample_frame 1 1 (Mode.or_ Mode.bw Mode.high_res) buf.

(** The world right after the class body has run, before any call. *)
Definition class_world (size : option (Z * Z)) (t : Palette.t) (term : list event) : World :=
  {| window := class_body size; tables := t; terminal := term |}.

(** A 2x2 [palette8] frame in an environment whose palette tables are empty. *)
Definition sample_bare : World :=
  fst (run (initialize Mode.palette8 ;; copy_buffer [1; 0; 0; 0])
         (class_world (Some (2, 2))
            {| Palette.monochrome := []; Palette.palette4 := []; Palette.palette8 := [] |}
            [])).

(** * Properties *)

(** ** The monad and the loop *)

Lemma run_bind {A B} (m : M A) (k : A -> M B) (s : World) :
  run (bind m k) s =
  match run m s with
  | (s', Ok a) => run (k a) s'
  | (s', Raise e) => (s', Raise e)
  end.
Proof. reflexivity. Qed.

(** A loop whose body only reads the world leaves it as it was. *)
Lemma for_in_reads {A L} (xs : list A) (body : L -> A -> M L) (s : World) :
  (forall acc x, fst (body acc x s) = s) ->
  forall acc, fst (for_in xs body acc s) = s.
Proof.
  intros Hbody. induction xs as [|x xs IH]; intros acc; [done|].
  cbn [for_in]. unfold bind. specialize (Hbody acc x).
  destruct (body acc x s) as [s' [acc'|e]]; cbn in Hbody; subst s'; [apply IH | done].
Qed.

(** A loop whose every step appends [g x] computes the concatenation. *)
Lemma for_in_appends {A} (xs : list A) (body : str -> A -> M str) (g : A -> str) (s : World) :
  (forall acc x, x ∈ xs -> body acc x s = (s, Ok (acc ++ g x))) ->
  forall acc, for_in xs body acc s = (s, Ok (acc ++ concat (g <$> xs))).
Proof.
  induction xs as [|x xs IH]; intros Hbody acc.
  - cbn. by rewrite app_nil_r.
  - cbn [for_in]. unfold bind. rewrite Hbody by apply list_elem_of_here.
    rewrite IH by (intros; apply Hbody; by apply list_elem_of_further).
    cbn. by rewrite <- app_assoc.
Qed.

(** ** Stepping through a method *)

Lemma bind_ret {A B} (a : A) (k : A -> M B) s : bind (ret a) k s = k a s.
Proof. reflexivity. Qed.

Lemma bind_getattr {A B} (f : Window -> A) (k : A -> M B) s :
  bind (getattr f) k s = k (f (window s)) s.
Proof. reflexivity. Qed.

Lemma bind_lift_ok {A B} (a : A) (k : A -> M B) s : bind (lift (Ok a)) k s = k a s.
Proof. reflexivity. Qed.

Lemma bind_assoc {A B C} (m : M A) (k : A -> M B) (k' : B -> M C) s :
  bind (bind m k) k' s = bind m (fun a => bind (k a) k') s.
Proof. unfold bind. by destruct (m s) as [s' [a|e]]. Qed.

Lemma bind_mode_and {B} (flag : Mode.t) (k : Mode.t -> M B) s :
  bind (mode_and flag) k s =
  match _mode (window s) with
  | Some m => k (Mode.and_ m flag) s
  | None => (s, Raise TypeError)
  end.
Proof. unfold mode_and, bind, getattr. by destruct (_mode (window s)). Qed.

Lemma bind_with_window {B} (f : Window -> Window) (k : unit -> M B) s :
  bind (with_window f) k s =
  k tt {| window := f (window s); tables := tables s; terminal := terminal s |}.
Proof. reflexivity. Qed.

Lemma bind_emit {B} (e : event) (k : unit -> M B) s :
  bind (emit e) k s =
  k tt {| window := window s; tables := tables s; terminal := terminal s ++ [e] |}.
Proof. reflexivity. Qed.

Lemma bind_table {B} (f : Palette.t -> list str) (k : list str -> M B) s :
  bind (table f) k s = k (f (tables s)) s.
Proof. reflexivity. Qed.

(** The steps that always go through, as a rewriting base. *)
Create Rewrite HintDb step.
#[local] Hint Rewrite @bind_ret @bind_getattr @bind_lift_ok @bind_with_window
  @bind_emit @bind_table : step.

Ltac step := autorewrite with step.

Lemma bind_run_ok {A B} (m : M A) (k : A -> M B) s s' a :
  m s = (s', Ok a) -> bind m k s = k a s'.
Proof. intros H. unfold bind. by rewrite H. Qed.

(** Reading the world in front of a computation that only reads. *)
Lemma bind_reads {A B} (m : M A) (k : A -> M B) s :
  fst (m s) = s -> (forall a, fst (k a s) = s) -> fst (bind m k s) = s.
Proof.
  intros Hm Hk. unfold bind. destruct (m s) as [s' [a|e]]; cbn in Hm; subst s'; [apply Hk | done].
Qed.

(** ** The loop bodies of [update] only read *)

Lemma lift_reads {A} (r : result A) s : fst (lift r s) = s.
Proof. reflexivity. Qed.

Lemma getattr_reads {A} (f : Window -> A) s : fst (getattr f s) = s.
Proof. reflexivity. Qed.

Lemma mode_and_reads flag s : fst (mode_and flag s) = s.
Proof. unfold mode_and, bind, getattr. by destruct (_mode (window s)). Qed.

(** Peels one read off the front of a computation. *)
Ltac read_one :=
  apply bind_reads;
  [first [apply getattr_reads | apply lift_reads | apply mode_and_reads] | intros ?].

Lemma braille_tile_reads yo output xo s : fst (braille_tile yo output xo s) = s.
Proof. unfold braille_tile. repeat read_one. reflexivity. Qed.

Lemma braille_row_reads output yo s : fst (braille_row output yo s) = s.
Proof.
  unfold braille_row. read_one.
  apply for_in_reads. intros; apply braille_tile_reads.
Qed.

Lemma indexed_pixel_reads locals val s : fst (indexed_pixel locals val s) = s.
Proof.
  unfold indexed_pixel. do 2 read_one.
  destruct (_ =? 0); [done|]. destruct (negb _); [|done].
  do 2 read_one. reflexivity.
Qed.

Lemma rgb_pixel_reads locals val s : fst (rgb_pixel locals val s) = s.
Proof.
  unfold rgb_pixel.
  destruct (val =? 0); [done|]. destruct (negb _); [|done].
  read_one. reflexivity.
Qed.

(** [update] either prints one string or raises; the attributes and the
    tables stay as they were in both cases. *)
Lemma update_outcome s :
  (exists output, run update s = (printed output s, Ok tt)) \/
  (exists e, run update s = (s, Raise e)).
Proof.
  unfold run, update. cbv zeta. rewrite bind_mode_and.
  destruct (_mode (window s)) as [m|] eqn:Hm; [|right; eexists; reflexivity].
  match goal with |- context [bind ?k (fun output => print output) s] =>
    assert (Hk : fst (k s) = s);
    [|change (bind k (fun output => print output) s) with
        (match k s with (s', Ok o) => print o s' | (s', Raise e) => (s', Raise e) end);
      destruct (k s) as [s' [output|e]]] end.
  - destruct (Mode.bool_ _); read_one; destruct (Mode.bool_ _); cbn [negb]; read_one.
    + apply for_in_reads. intros; apply braille_row_reads.
    + done.
    + apply bind_reads; [|done]. apply for_in_reads. intros; apply indexed_pixel_reads.
    + apply bind_reads; [|done]. apply for_in_reads. intros; apply rgb_pixel_reads.
  - cbn in Hk; subst s'. left. by exists output.
  - cbn in Hk; subst s'. right. by exists e.
Qed.

(** ** Rendering is read-only *)

(** C10: [update] leaves the whole framebuffer state as it was, whatever
    the world it runs in and whether it prints or raises: mode, terminal
    width and height, width, height, buffer and palette are the same
    before and after the call (and so are the palette tables). *)
Theorem update_read_only s :
  let s' := fst (run update s) in
  _mode (window s') = _mode (window s) /\
  _terminal_width (window s') = _terminal_width (window s) /\
  _terminal_height (window s') = _terminal_height (window s) /\
  _width (window s') = _width (window s) /\
  _height (window s') = _height (window s) /\
  _disp_buffer (window s') = _disp_buffer (window s) /\
  palette (window s') = palette (window s) /\
  tables s' = tables s.
Proof.
  destruct (update_outcome s) as [[output H]|[e H]]; rewrite H; cbn; auto 10.
Qed.

(** ** Black and white *)

Lemma concat_glyphs (buf : list Z) :
  concat ((fun x => if x =? 0 then SPACE else BLOCK) <$> buf) = bw_glyph <$> buf.
Proof.
  induction buf as [|v buf IH]; [done|].
  cbn [fmap list_fmap concat]. rewrite IH. unfold bw_glyph. by destruct (v =? 0).
Qed.

Lemma bw_glyph_cases v : bw_glyph v = 32 \/ bw_glyph v = 0x2588.
Proof. unfold bw_glyph. destruct (v =? 0); auto. Qed.

Lemma update_bw_run s m :
  _mode (window s) = Some m ->
  Mode.has Mode.bw m = true ->
  Mode.has Mode.high_res m = false ->
  run update s = (printed (HOME ++ (bw_glyph <$> _disp_buffer (window s))) s, Ok tt).
Proof.
  unfold Mode.has. intros Hm Hbw Hhr.
  unfold run, update. cbv zeta.
  rewrite bind_mode_and, Hm, Hbw, bind_assoc, bind_mode_and, Hm, Hhr.
  cbn [negb]. rewrite bind_assoc, bind_getattr, bind_ret, concat_glyphs.
  reflexivity.
Qed.

(** C8: in [bw] mode without [high_res], [update] writes exactly one
    string: the cursor-home sequence ESC [ H, then one character per pixel
    in buffer order, a space for 0 and the solid block for any other value;
    the string does not end in a newline. *)
Theorem update_bw s m :
  _mode (window s) = Some m ->
  Mode.has Mode.bw m = true ->
  Mode.has Mode.high_res m = false ->
  let body := bw_glyph <$> _disp_buffer (window s) in
  run update s = (printed (HOME ++ body) s, Ok tt) /\
  terminal (fst (run update s)) = terminal s ++ [Stdout ([27; 91; 72] ++ body)] /\
  length body = length (_disp_buffer (window s)) /\
  (forall i v, _disp_buffer (window s) !! i = Some v ->
     body !! i = Some (if v =? 0 then 32 else 0x2588)) /\
  list.last (HOME ++ body) <> Some 10.
Proof.
  intros Hm Hbw Hhr body. rewrite (update_bw_run s m Hm Hbw Hhr).
  split_and!; [done|done|apply length_fmap| |].
  - intros i v Hi. subst body. by rewrite list_lookup_fmap, Hi.
  - subst body. destruct (_disp_buffer (window s)) as [|v buf _] using rev_ind.
    + by vm_compute.
    + rewrite fmap_app, app_assoc. cbn [fmap list_fmap]. rewrite last_snoc.
      destruct (bw_glyph_cases v) as [-> | ->]; by intros [= ?].
Qed.

Lemma update_bw_witness :
  _mode (window sample_bw) = Some Mode.bw /\
  terminal (fst (run update sample_bw)) =
    terminal sample_bw ++
    [Stdout ([27; 91; 72] ++ [32; 32; 32; 32; 32; 0x2588; 0x2588; 32])].
Proof.
  split; [reflexivity|].
  exact (proj1 (proj2 (update_bw sample_bw Mode.bw eq_refl eq_refl eq_refl))).
Defined.

(** ** [initialize] *)

Lemma length_range_1 n : length (range 0 n 1) = Z.to_nat n.
Proof.
  unfold range. rewrite length_fmap, length_seqZ.
  f_equal. rewrite Z.div_1_r. lia.
Qed.

(** [[0 for _ in range(n)]] *)
Lemma zeros n : (fun _ => 0) <$> range 0 n 1 = replicate (Z.to_nat n) 0.
Proof.
  rewrite <- length_range_1.
  induction (range 0 n 1) as [|k l IH]; [done|]. cbn. by rewrite IH.
Qed.

(** What [initialize] does, in one equation: it records the mode, then
    either gives up or installs sizes, buffer and palette and prepares the
    terminal. *)
Lemma initialize_run mode s :
  run (initialize mode) s =
  if rejected mode
  then (with_mode (Some mode) s, Raise NotImplementedError)
  else (initialized mode s, Ok tt).
Proof.
  unfold run, initialize, rejected, Mode.has, set_mode, set_width, set_height,
    set_disp_buffer, set_palette, print.
  rewrite bind_with_window.
  destruct (negb (Mode.bool_ (Mode.and_ mode Mode.bw)) &&
            Mode.bool_ (Mode.and_ mode Mode.high_res)) eqn:Hrej.
  { reflexivity. }
  rewrite bind_ret.
  rewrite bind_getattr, bind_with_window.
  rewrite bind_getattr, bind_with_window.
  rewrite !bind_getattr, bind_with_window.
  rewrite bind_mode_and, zeros. cbn [window _mode _width _height _terminal_width
    _terminal_height _disp_buffer palette tables terminal].
  unfold initialized, selected_palette, Mode.has.
  destruct (Mode.bool_ (Mode.and_ mode Mode.high_res)); cbn [negb];
  (destruct (Mode.bool_ (Mode.and_ mode Mode.monochrome));
   [|rewrite !bind_assoc, bind_mode_and; cbn [window _mode];
     destruct (Mode.bool_ (Mode.and_ mode Mode.palette4));
     [|rewrite !bind_assoc, bind_mode_and; cbn [window _mode];
       destruct (Mode.bool_ (Mode.and_ mode Mode.palette8))]]).
  all: rewrite ?bind_assoc, ?bind_table, ?bind_with_window, bind_emit.
  all: unfold emit; cbn [window _mode _width _height _terminal_width
    _terminal_height _disp_buffer palette tables terminal].

  all: by rewrite <- app_assoc.
Qed.

Lemma rejected_iff mode :
  rejected mode = true <->
  Mode.has Mode.high_res mode = true /\ Mode.has Mode.bw mode = false.
Proof.
  unfold rejected. rewrite andb_true_iff, negb_true_iff. tauto.
Qed.

(** C5, as the code has it: [initialize] raises the configuration error
    exactly when [high_res] is requested without [bw], whatever other
    flags are set, and succeeds for every other mode. *)
Theorem initialize_rejects_high_res_without_bw s mode :
  (snd (run (initialize mode) s) = Raise NotImplementedError <->
   Mode.has Mode.high_res mode = true /\ Mode.has Mode.bw mode = false) /\
  (snd (run (initialize mode) s) = Ok tt <->
   ~ (Mode.has Mode.high_res mode = true /\ Mode.has Mode.bw mode = false)).
Proof.
  rewrite <- rejected_iff, initialize_run.
  destruct (rejected mode); cbn; split; split; by intros H.
Qed.

(** C5, as stated, fails: [high_res] alone carries no color flag, yet
    [initialize] raises the configuration error for it. *)
Lemma high_res_alone_is_rejected :
  ~ rejection_as_specified (sample_world 4 2) Mode.high_res.
Proof.
  intros [[Hraise _] _].
  assert (H : snd (run (initialize Mode.high_res) (sample_world 4 2)) =
              Raise NotImplementedError) by reflexivity.
  apply Hraise in H as [_ H]. discriminate H.
Qed.

(** The other direction fails too: with [bw] set, [high_res] and a color
    flag together are accepted. *)
Lemma bw_high_res_palette4_is_accepted :
  let mode := Mode.or_ Mode.bw (Mode.or_ Mode.high_res Mode.palette4) in
  snd (run (initialize mode) (sample_world 4 2)) = Ok tt /\
  Mode.has Mode.high_res mode = true /\ color_flag mode = true.
Proof. by vm_compute. Qed.

(** C6: after a successful [initialize] the virtual size is the terminal
    size, or twice its width and four times its height under [high_res];
    the buffer has exactly [width * height] entries, all 0. *)
Theorem initialize_sizes_and_buffer s mode :
  terminal_sized (window s) ->
  snd (run (initialize mode) s) = Ok tt ->
  let w := window (fst (run (initialize mode) s)) in
  _terminal_width w = _terminal_width (window s) /\
  _terminal_height w = _terminal_height (window s) /\
  (Mode.has Mode.high_res mode = false ->
     _width w = _terminal_width w /\ _height w = _terminal_height w) /\
  (Mode.has Mode.high_res mode = true ->
     _width w = _terminal_width w * 2 /\ _height w = _terminal_height w * 4) /\
  Z.of_nat (length (_disp_buffer w)) = _width w * _height w /\
  (forall i v, _disp_buffer w !! i = Some v -> v = 0).
Proof.
  intros [Htw Hth]. rewrite initialize_run.
  destruct (rejected mode); [done|]. intros _ w. subst w. cbn.
  destruct (Mode.has Mode.high_res mode); split_and!; try done.
  all: try (rewrite length_replicate; nia).
  all: by intros i v [-> _]%lookup_replicate.
Qed.

Lemma initialize_sizes_and_buffer_witness :
  let s := sample_world 4 2 in
  let mode := Mode.or_ Mode.bw Mode.high_res in
  let w := window (fst (run (initialize mode) s)) in
  terminal_sized (window s) /\
  snd (run (initialize mode) s) = Ok tt /\
  _width w = 8 /\ _height w = 8 /\ length (_disp_buffer w) = 64%nat.
Proof.
  assert (Hsized : terminal_sized (window (sample_world 4 2))) by (split; by vm_compute).
  pose proof (initialize_sizes_and_buffer (sample_world 4 2)
                (Mode.or_ Mode.bw Mode.high_res) Hsized eq_refl) as H.
  split_and!; [exact Hsized|reflexivity|..].
  - exact (proj1 (proj1 (proj2 (proj2 (proj2 H))) eq_refl)).
  - exact (proj2 (proj1 (proj2 (proj2 (proj2 H))) eq_refl)).
  - reflexivity.
Defined.

(** ** [plot], [copy_buffer], [clear] *)

Lemma setitem_in_range {A} (l : list A) (i : Z) (v : A) :
  0 <= i < Z.of_nat (length l) -> setitem l i v = Ok (<[Z.to_nat i := v]> l).
Proof.
  intros Hi. unfold setitem, subscript.
  destruct (i <? 0) eqn:Hneg; [lia|].
  destruct ((0 <=? i) && (i <? Z.of_nat (length l))) eqn:Hin; [done|].
  apply andb_false_iff in Hin as [H|H]; lia.
Qed.

Lemma plot_guard x y w h :
  (0 <? x) && (x <? w) && ((0 <? y) && (y <? h)) = true <->
  1 <= x < w /\ 1 <= y < h.
Proof. rewrite !andb_true_iff, !Z.ltb_lt. lia. Qed.

Lemma plot_index x y w h : 1 <= x < w -> 1 <= y < h -> 0 <= x + y * w < w * h.
Proof. nia. Qed.

Lemma plot_inside s x y v :
  buffer_sized (window s) ->
  1 <= x < _width (window s) -> 1 <= y < _height (window s) ->
  run (plot x y v) s =
  (with_buffer (<[Z.to_nat (x + y * _width (window s)) := v]> (_disp_buffer (window s))) s,
   Ok tt).
Proof.
  intros Hsized Hx Hy. unfold run, plot. step.
  rewrite (proj2 (plot_guard _ _ _ _) (conj Hx Hy)). step.
  rewrite setitem_in_range; [by step|].
  rewrite Hsized. by apply plot_index.
Qed.

Lemma plot_outside s x y v :
  ~ (1 <= x < _width (window s) /\ 1 <= y < _height (window s)) ->
  run (plot x y v) s = (s, Ok tt).
Proof.
  intros Hout. unfold run, plot. step.
  destruct (_ && _) eqn:Hguard; [|done].
  by apply plot_guard in Hguard.
Qed.

Lemma copy_buffer_run s buf :
  run (copy_buffer buf) s =
  if Z.of_nat (length buf) =? _width (window s) * _height (window s)
  then (with_buffer buf s, Ok tt)
  else (s, Raise IndexError).
Proof.
  unfold run, copy_buffer. step.
  by destruct (_ =? _).
Qed.

Lemma clear_run s :
  run clear s =
  (with_buffer (replicate (Z.to_nat (_width (window s) * _height (window s))) 0) s, Ok tt).
Proof. unfold run, clear. step. by rewrite zeros. Qed.

(** C3: on a window whose buffer has [width * height] entries,
    [plot x y v] with [1 <= x < width] and [1 <= y < height] stores [v] at
    index [x + y * width] and touches nothing else; for every other [x],
    [y] (0, negative, or too large) the world is unchanged; no exception is
    raised in either case. *)
Theorem plot_sets_one_pixel s x y v :
  buffer_sized (window s) ->
  let w := _width (window s) in
  let h := _height (window s) in
  let buf := _disp_buffer (window s) in
  (1 <= x < w /\ 1 <= y < h ->
   exists buf',
     run (plot x y v) s = (with_buffer buf' s, Ok tt) /\
     length buf' = length buf /\
     buf' !! Z.to_nat (x + y * w) = Some v /\
     (forall j, j <> Z.to_nat (x + y * w) -> buf' !! j = buf !! j)) /\
  (~ (1 <= x < w /\ 1 <= y < h) -> run (plot x y v) s = (s, Ok tt)).
Proof.
  intros Hsized w h buf. split.
  - intros [Hx Hy]. eexists. split; [by apply plot_inside|].
    pose proof (plot_index x y w h Hx Hy) as Hidx.
    split_and!.
    + apply length_insert.
    + apply list_lookup_insert_eq. unfold buffer_sized in Hsized. subst w h buf. lia.
    + intros j Hj. by apply list_lookup_insert_ne.
  - apply plot_outside.
Qed.

Lemma plot_sets_one_pixel_witness :
  buffer_sized (window sample_dark) /\
  (exists buf',
     run (plot 2 1 7) sample_dark = (with_buffer buf' sample_dark, Ok tt) /\
     length buf' = 12%nat /\
     buf' !! 6%nat = Some 7 /\
     (forall j, j <> 6%nat -> buf' !! j = _disp_buffer (window sample_dark) !! j)) /\
  run (plot 0 1 7) sample_dark = (sample_dark, Ok tt) /\
  run (plot 2 0 7) sample_dark = (sample_dark, Ok tt) /\
  run (plot 4 1 7) sample_dark = (sample_dark, Ok tt).
Proof.
  assert (Hsized : buffer_sized (window sample_dark)) by reflexivity.
  split_and!; [exact Hsized|..].
  - apply (proj1 (plot_sets_one_pixel sample_dark 2 1 7 Hsized)).
    change (1 <= 2 < 4 /\ 1 <= 1 < 3). lia.
  - apply (proj2 (plot_sets_one_pixel sample_dark 0 1 7 Hsized)).
    change (~ (1 <= 0 < 4 /\ 1 <= 1 < 3)). lia.
  - apply (proj2 (plot_sets_one_pixel sample_dark 2 0 7 Hsized)).
    change (~ (1 <= 2 < 4 /\ 1 <= 0 < 3)). lia.
  - apply (proj2 (plot_sets_one_pixel sample_dark 4 1 7 Hsized)).
    change (~ (1 <= 4 < 4 /\ 1 <= 1 < 3)). lia.
Defined.

(** C4: [copy_buffer buf] raises the length-mismatch error exactly when
    [len(buf) != width * height], and then leaves the world, buffer
    included, as it was; when the lengths agree the buffer becomes [buf],
    element for element, and nothing else changes. *)
Theorem copy_buffer_checks_length s buf :
  let n := _width (window s) * _height (window s) in
  (snd (run (copy_buffer buf) s) = Raise IndexError <-> Z.of_nat (length buf) <> n) /\
  (Z.of_nat (length buf) <> n -> run (copy_buffer buf) s = (s, Raise IndexError)) /\
  (Z.of_nat (length buf) = n ->
   run (copy_buffer buf) s = (with_buffer buf s, Ok tt) /\
   _disp_buffer (window (fst (run (copy_buffer buf) s))) = buf).
Proof.
  intros n. rewrite copy_buffer_run. fold n.
  destruct (Z.eqb_spec (Z.of_nat (length buf)) n) as [Heq|Hne]; cbn.
  - split_and!; [split; [discriminate | by intros []] | by intros [] | done].
  - split_and!; [done | done | by intros ?].
Qed.

Lemma copy_buffer_checks_length_witness :
  run (copy_buffer [1; 2; 3]) sample_dark = (sample_dark, Raise IndexError) /\
  _disp_buffer (window (fst (run (copy_buffer [1; 0; 2; 0; 3; 0; 4; 0; 5; 0; 6; 0]) sample_dark))) =
    [1; 0; 2; 0; 3; 0; 4; 0; 5; 0; 6; 0].
Proof.
  split.
  - apply (proj1 (proj2 (copy_buffer_checks_length sample_dark [1; 2; 3]))).
    change (3 <> 4 * 3). lia.
  - apply (proj2 (proj2 (copy_buffer_checks_length sample_dark
                           [1; 0; 2; 0; 3; 0; 4; 0; 5; 0; 6; 0]))). reflexivity.
Defined.

(** ** The buffer keeps its size *)

Lemma buffer_sized_nonneg w : buffer_sized w -> 0 <= _width w * _height w.
Proof. unfold buffer_sized. lia. Qed.

Lemma plot_length s x y v :
  buffer_sized (window s) ->
  window (fst (run (plot x y v) s)) = window s \/
  exists i, window (fst (run (plot x y v) s)) =
            window (with_buffer (<[i := v]> (_disp_buffer (window s))) s).
Proof.
  intros Hsized.
  destruct (decide (1 <= x < _width (window s) /\ 1 <= y < _height (window s))) as [[Hx Hy]|Hout].
  - right. eexists. by rewrite plot_inside.
  - left. by rewrite plot_outside.
Qed.

(** Every call keeps the terminal size and the size of the buffer. *)
Lemma perform_keeps_size c s :
  terminal_sized (window s) -> buffer_sized (window s) ->
  terminal_sized (window (fst (run (perform c) s))) /\
  buffer_sized (window (fst (run (perform c) s))).
Proof.
  intros Hterm Hsized. destruct c as [mode|x y v|buf| |]; cbn [perform].
  - rewrite initialize_run. destruct (rejected mode); [done|].
    split; [done|]. destruct Hterm as [Htw Hth].
    unfold buffer_sized. cbn. rewrite length_replicate.
    destruct (Mode.has Mode.high_res mode); nia.
  - destruct (plot_length s x y v Hsized) as [->|[i ->]]; [done|].
    split; [done|]. unfold buffer_sized. cbn. by rewrite length_insert.
  - rewrite copy_buffer_run.
    destruct (Z.eqb_spec (Z.of_nat (length buf)) (_width (window s) * _height (window s)));
      [|done].
    by split.
  - rewrite clear_run. split; [done|].
    unfold buffer_sized. cbn. rewrite length_replicate.
    apply buffer_sized_nonneg in Hsized. lia.
  - destruct (update_outcome s) as [[output ->]|[e ->]]; by split.
Qed.

Lemma after_keeps_size calls s :
  terminal_sized (window s) -> buffer_sized (window s) ->
  terminal_sized (window (after calls s)) /\ buffer_sized (window (after calls s)).
Proof.
  revert s. induction calls as [|c calls IH]; intros s Hterm Hsized; [done|].
  cbn [after fold_left]. apply IH; by apply perform_keeps_size.
Qed.

Lemma initialize_establishes_size mode s :
  terminal_sized (window s) ->
  snd (run (initialize mode) s) = Ok tt ->
  terminal_sized (window (fst (run (initialize mode) s))) /\
  buffer_sized (window (fst (run (initialize mode) s))).
Proof.
  intros [Htw Hth]. rewrite initialize_run.
  destruct (rejected mode); [done|]. intros _. split; [done|].
  unfold buffer_sized. cbn. rewrite length_replicate.
  destruct (Mode.has Mode.high_res mode); nia.
Qed.

(** C9: from a successful [initialize] on, whatever calls follow, the
    buffer has [width * height] entries; in any such state [plot] keeps the
    length, [clear] leaves a buffer of [width * height] entries, and
    [copy_buffer] either raises and leaves the buffer alone or installs one
    of exactly [width * height] entries; none of the three changes
    [width] or [height]. *)
Theorem buffer_size_invariant s0 mode calls :
  terminal_sized (window s0) ->
  snd (run (initialize mode) s0) = Ok tt ->
  let s := after calls (fst (run (initialize mode) s0)) in
  let n := _width (window s) * _height (window s) in
  let buffer_after (m : M unit) := _disp_buffer (window (fst (run m s))) in
  let size_after (m : M unit) :=
    (_width (window (fst (run m s))), _height (window (fst (run m s)))) in
  Z.of_nat (length (_disp_buffer (window s))) = n /\
  (forall x y v,
     length (buffer_after (plot x y v)) = length (_disp_buffer (window s)) /\
     size_after (plot x y v) = (_width (window s), _height (window s))) /\
  (Z.of_nat (length (buffer_after clear)) = n /\
   size_after clear = (_width (window s), _height (window s))) /\
  (forall buf,
     (snd (run (copy_buffer buf) s) = Raise IndexError /\
      buffer_after (copy_buffer buf) = _disp_buffer (window s) \/
      snd (run (copy_buffer buf) s) = Ok tt /\
      Z.of_nat (length (buffer_after (copy_buffer buf))) = n) /\
     size_after (copy_buffer buf) = (_width (window s), _height (window s))).
Proof.
  intros Hterm Hok s n buffer_after size_after.
  destruct (initialize_establishes_size mode s0 Hterm Hok) as [Hterm1 Hsized1].
  destruct (after_keeps_size calls _ Hterm1 Hsized1) as [Hterm2 Hsized].
  fold s in Hterm2, Hsized.
  split_and!.
  - exact Hsized.
  - intros x y v. subst buffer_after size_after. cbn beta.
    destruct (plot_length s x y v Hsized) as [->|[i ->]]; [done|].
    cbn. by rewrite length_insert.
  - subst buffer_after. cbn beta. rewrite clear_run. cbn. rewrite length_replicate.
    apply buffer_sized_nonneg in Hsized. subst n. lia.
  - subst size_after. cbn beta. by rewrite clear_run.
  - intros buf. subst buffer_after size_after. cbn beta. rewrite copy_buffer_run. fold n.
    destruct (Z.eqb_spec (Z.of_nat (length buf)) n); cbn; split; auto.
Qed.

Lemma buffer_size_invariant_witness :
  let s0 := sample_world 4 2 in
  let calls := [Plot 1 1 1; Copy_buffer [1; 2; 3]; Clear; Plot 3 1 2; Update] in
  let s := after calls (fst (run (initialize Mode.bw) s0)) in
  terminal_sized (window s0) /\
  snd (run (initialize Mode.bw) s0) = Ok tt /\
  Z.of_nat (length (_disp_buffer (window s))) = _width (window s) * _height (window s).
Proof.
  assert (Hterm : terminal_sized (window (sample_world 4 2))) by (split; by vm_compute).
  split_and!; [exact Hterm|reflexivity|].
  exact (proj1 (buffer_size_invariant (sample_world 4 2) Mode.bw
                  [Plot 1 1 1; Copy_buffer [1; 2; 3]; Clear; Plot 3 1 2; Update]
                  Hterm eq_refl)).
Defined.

(** ** Indexed color *)

Lemma indexed_flags m :
  Mode.has (Mode.or_ (Mode.or_ Mode.monochrome Mode.palette4) Mode.palette8) m =
  color_flag m.
Proof.
  unfold color_flag, Mode.has, Mode.bool_, Mode.and_, Mode.or_.
  rewrite !N.land_lor_distr_r.
  destruct (N.eqb_spec (N.land m Mode.monochrome) 0) as [->|Hm]; cbn [negb orb].
  - destruct (N.eqb_spec (N.land m Mode.palette4) 0) as [->|H4]; cbn [negb orb].
    + by rewrite !N.lor_0_l.
    + apply negb_true_iff, N.eqb_neq. rewrite !N.lor_eq_0_iff. tauto.
  - apply negb_true_iff, N.eqb_neq. rewrite !N.lor_eq_0_iff. tauto.
Qed.

Lemma getitem_in_range {A} (l : list A) (i : Z) :
  0 <= i < Z.of_nat (length l) ->
  exists x, l !! Z.to_nat i = Some x /\ getitem l i = Ok x.
Proof.
  intros Hi. destruct (lookup_lt_is_Some_2 l (Z.to_nat i)) as [x Hx]; [lia|].
  exists x. split; [done|]. unfold getitem, subscript.
  destruct (i <? 0) eqn:Hneg; [lia|].
  destruct ((0 <=? i) && (i <? Z.of_nat (length l))) eqn:Hin.
  - by rewrite Hx.
  - apply andb_false_iff in Hin as [H|H]; lia.
Qed.

Lemma previous_index_snoc n before v :
  previous_index n (before ++ [v]) =
  if v `mod` n =? 0 then previous_index n before else v `mod` n.
Proof. unfold previous_index. by rewrite fold_left_app. Qed.

Lemma cells_from_cons n before v rest :
  cells_from n before (v :: rest) =
  indexed_cell n before v :: cells_from n (before ++ [v]) rest.
Proof.
  unfold cells_from. cbn [imap take]. rewrite app_nil_r. f_equal.
  apply imap_ext. intros k x _. cbn. by rewrite <- app_assoc.
Qed.

(** The indexed loop, started after the pixels [before]. *)
Lemma indexed_loop s (before rest : list Z) (output : str) :
  palette (window s) <> [] ->
  let pal := palette (window s) in
  let n := Z.of_nat (length pal) in
  for_in rest indexed_pixel (output, previous_index n before) s =
  (s, Ok (output ++ concat (cell_text pal <$> cells_from n before rest),
          previous_index n (before ++ rest))).
Proof.
  intros Hpal pal n.
  assert (Hn : 0 < n) by (subst n pal; destruct (palette (window s)); [done | cbn; lia]).
  revert before output. induction rest as [|v rest IH]; intros before output.
  { cbn. by rewrite !app_nil_r. }
  cbn [for_in]. rewrite cells_from_cons.
  rewrite (bind_run_ok _ _ s s (output ++ cell_text pal (indexed_cell n before v),
                                previous_index n (before ++ [v]))).
  - rewrite IH. cbn [fmap list_fmap concat]. by rewrite <- !app_assoc.
  - rewrite previous_index_snoc.
    unfold indexed_pixel, indexed_cell. cbn [fst snd].
    rewrite bind_getattr. fold pal n. unfold py_mod.
    destruct (Z.eqb_spec n 0) as [|_]; [lia|]. rewrite bind_lift_ok.
    destruct (v `mod` n =? 0) eqn:Hzero; [reflexivity|].
    destruct (Z.eqb_spec (v `mod` n) (previous_index n before)) as [Hprev|Hprev];
      cbn [negb]; [by rewrite <- Hprev|].
    rewrite bind_getattr. fold pal.
    destruct (getitem_in_range pal (v `mod` n)) as (code & Hcode & ->).
    { fold n. apply Z.mod_pos_bound. lia. }
    rewrite bind_lift_ok. cbn [cell_text]. unfold str in *. rewrite Hcode. reflexivity.
Qed.

Lemma update_indexed_run s m :
  _mode (window s) = Some m ->
  Mode.has Mode.bw m = false ->
  color_flag m = true ->
  palette (window s) <> [] ->
  let pal := palette (window s) in
  run update s =
  (printed (HOME ++ concat (cell_text pal <$>
              indexed_cells (Z.of_nat (length pal)) (_disp_buffer (window s)))) s,
   Ok tt).
Proof.
  intros Hm Hbw Hix Hpal pal. rewrite <- indexed_flags in Hix. unfold Mode.has in Hbw, Hix.
  unfold run, update. cbv zeta.
  rewrite bind_mode_and, Hm, Hbw, bind_assoc, bind_mode_and, Hm, Hix.
  rewrite bind_assoc, bind_getattr, bind_assoc.
  change (-1) with (previous_index (Z.of_nat (length pal)) []).
  unfold bind at 1. rewrite (indexed_loop s [] _ HOME Hpal).
  reflexivity.
Qed.

Lemma indexed_cells_lookup n buf k :
  indexed_cells n buf !! k = indexed_cell n (take k buf) <$> buf !! k.
Proof. unfold indexed_cells, cells_from. by rewrite list_lookup_imap. Qed.

(** Each escape code emitted differs from the one emitted before it, and
    the first one from the index the loop starts with. *)
Lemma no_repeat_from n before rest :
  no_repeat (previous_index n before :: emitted_indices (cells_from n before rest)).
Proof.
  revert before. induction rest as [|v rest IH]; intros before; [done|].
  rewrite cells_from_cons. specialize (IH (before ++ [v])).
  rewrite previous_index_snoc in IH. unfold emitted_indices, indexed_cell in *.
  destruct (v `mod` n =? 0); cbn [omap list_omap]; [done|].
  destruct (Z.eqb_spec (v `mod` n) (previous_index n before)) as [Heq|Hne];
    cbn [omap list_omap].
  - by rewrite <- Heq.
  - split; [congruence | done].
Qed.

Lemma no_repeat_tail a l : no_repeat (a :: l) -> no_repeat l.
Proof. destruct l as [|b l]; [done | by intros [_ H]]. Qed.

(** C7: in an indexed mode ([bw] not set, one of [monochrome],
    [palette4], [palette8] set) with a palette of [n > 0] entries,
    [update] prints HOME and then, pixel by pixel, for the value reduced
    modulo [n]: a space for 0; the palette's escape string for that index
    and a block when the index differs from the previously emitted nonzero
    index (-1 at the start of the frame); a bare block when it equals it.
    The buffer [[2; 2; 0; 3]] with four entries gives escape+block for 2, a
    bare block, a space, escape+block for 3; no two consecutive escape
    codes carry the same index. *)
Theorem update_indexed s m :
  _mode (window s) = Some m ->
  Mode.has Mode.bw m = false ->
  color_flag m = true ->
  palette (window s) <> [] ->
  let pal := palette (window s) in
  let n := Z.of_nat (length pal) in
  let buf := _disp_buffer (window s) in
  let cells := indexed_cells n buf in
  run update s = (printed (HOME ++ concat (cell_text pal <$> cells)) s, Ok tt) /\
  length cells = length buf /\
  (forall k val, buf !! k = Some val ->
     let i := val `mod` n in
     let prev := previous_index n (take k buf) in
     cells !! k = Some (if i =? 0 then Blank else if i =? prev then Plain else Colored i) /\
     (i <> 0 -> exists code,
        pal !! Z.to_nat i = Some code /\ cell_text pal (Colored i) = code ++ BLOCK)) /\
  no_repeat (emitted_indices cells) /\
  indexed_cells 4 [2; 2; 0; 3] = [Colored 2; Plain; Blank; Colored 3].
Proof.
  intros Hm Hbw Hix Hpal pal n buf cells.
  assert (Hn : 0 < n) by (subst n pal; destruct (palette (window s)); [done | cbn; lia]).
  split_and!.
  - by apply update_indexed_run with m.
  - subst cells. unfold indexed_cells, cells_from. apply length_imap.
  - intros k val Hk i prev. split.
    + subst cells. by rewrite indexed_cells_lookup, Hk.
    + intros Hi. destruct (getitem_in_range pal i) as (code & Hcode & _).
      { subst i. fold n. pose proof (Z.mod_pos_bound val n Hn). lia. }
      exists code. split; [done|]. cbn [cell_text]. unfold str in *. by rewrite Hcode.
  - apply no_repeat_tail with (previous_index n []). apply no_repeat_from.
  - reflexivity.
Qed.

Lemma update_indexed_witness :
  _mode (window sample_indexed) = Some Mode.palette4 /\
  palette (window sample_indexed) = [lit "[30m"; lit "[31m"; lit "[32m"; lit "[33m"] /\
  _disp_buffer (window sample_indexed) = [2; 2; 0; 3] /\
  run update sample_indexed =
    (printed (HOME ++ (lit "[32m" ++ BLOCK) ++ BLOCK ++ SPACE ++ (lit "[33m" ++ BLOCK))
       sample_indexed, Ok tt).
Proof.
  split_and!; [reflexivity..|].
  assert (Hpal : palette (window sample_indexed) <> []) by discriminate.
  exact (proj1 (update_indexed sample_indexed Mode.palette4 eq_refl eq_refl eq_refl Hpal)).
Defined.

(** ** Full color *)

Lemma previous_value_snoc before v :
  previous_value (before ++ [v]) = if v =? 0 then previous_value before else v.
Proof. unfold previous_value. by rewrite fold_left_app. Qed.

Lemma rgb_cells_from_cons red before v rest :
  rgb_cells_from red before (v :: rest) =
  rgb_cell_of red before v :: rgb_cells_from red (before ++ [v]) rest.
Proof.
  unfold rgb_cells_from. cbn [imap take]. rewrite app_nil_r. f_equal.
  apply imap_ext. intros k x _. cbn. by rewrite <- app_assoc.
Qed.

(** ** The digit limit *)

Lemma limit_above_colors : 2 ^ 24 < 10 ^ int_max_str_digits.
Proof. by vm_compute. Qed.

Lemma formattable_small n : Z.abs n < 2 ^ 24 -> formattable n = true.
Proof.
  intros Hn. unfold formattable. apply Z.ltb_lt.
  eapply Z.lt_trans; [exact Hn | exact limit_above_colors].
Qed.

Lemma formattable_byte n : 0 <= n < 256 -> formattable n = true.
Proof. intros Hn. apply formattable_small. lia. Qed.

(** Shifting to the right does not add digits. *)
Lemma formattable_shiftr v k :
  0 <= k -> formattable v = true -> formattable (Z.shiftr v k) = true.
Proof.
  unfold formattable. intros Hk Hv%Z.ltb_lt. apply Z.ltb_lt.
  eapply Z.le_lt_trans; [clear Hv|exact Hv].
  rewrite Z.shiftr_div_pow2 by done.
  assert (Hd : 0 < 2 ^ k) by (apply Z.pow_pos_nonneg; lia).
  generalize dependent (2 ^ k). intros d Hd.
  pose proof (Z.div_mod v d ltac:(lia)). pose proof (Z.mod_pos_bound v d Hd). nia.
Qed.

Lemma land_byte v : 0 <= Z.land v 0xFF < 256.
Proof.
  change 0xFF with (Z.ones 8). rewrite Z.land_ones by lia.
  apply Z.mod_pos_bound. lia.
Qed.

(** The f-string of the RGB branch: its text when the three components
    can be formatted, [ValueError] otherwise. *)
Lemma truecolor_run red green blue :
  truecolor red green blue =
  if rgb_cell_formattable (Lit red green blue)
  then Ok (escape_text red green blue)
  else Raise ValueError.
Proof.
  unfold truecolor, str_of_int, rgb_cell_formattable, escape_text.
  by destruct (formattable red), (formattable green), (formattable blue).
Qed.

(** Green and blue are bytes: whether a cell can be formatted is a
    matter of its red component. *)
Lemma rgb_cell_of_formattable red before val :
  rgb_cell_formattable (rgb_cell_of red before val) =
  (val =? 0) || (val =? previous_value before) || formattable (red val).
Proof.
  unfold rgb_cell_of.
  destruct (val =? 0); [done|]. destruct (val =? previous_value before); [done|].
  cbn [rgb_cell_formattable orb].
  rewrite (formattable_byte (Z.land (Z.shiftr val 8) 0xFF)) by apply land_byte.
  rewrite (formattable_byte (Z.land val 0xFF)) by apply land_byte.
  by rewrite !andb_true_r.
Qed.

(** One step of the RGB loop, after the pixels [before]. *)
Lemma rgb_pixel_run s before output v :
  rgb_pixel (output, previous_value before) v s =
  (s, if rgb_cell_formattable (rgb_cell_of red_shifted before v)
      then Ok (output ++ rgb_cell_text (rgb_cell_of red_shifted before v),
               previous_value (before ++ [v]))
      else Raise ValueError).
Proof.
  rewrite previous_value_snoc. unfold rgb_pixel, rgb_cell_of, red_shifted. cbn [fst snd].
  destruct (v =? 0); [reflexivity|].
  destruct (Z.eqb_spec v (previous_value before)) as [Hprev|Hprev]; cbn [negb].
  - by rewrite <- Hprev.
  - rewrite truecolor_run.
    by destruct (rgb_cell_formattable _).
Qed.

(** The RGB loop, started after the pixels [before]. *)
Lemma rgb_loop s (before rest : list Z) (output : str) :
  for_in rest rgb_pixel (output, previous_value before) s =
  (s, if rgb_formattable (rgb_cells_from red_shifted before rest)
      then Ok (output ++ concat (rgb_cell_text <$> rgb_cells_from red_shifted before rest),
               previous_value (before ++ rest))
      else Raise ValueError).
Proof.
  revert before output. induction rest as [|v rest IH]; intros before output.
  { cbn. by rewrite !app_nil_r. }
  cbn [for_in]. rewrite rgb_cells_from_cons. unfold rgb_formattable. cbn [forallb].
  unfold bind. rewrite rgb_pixel_run.
  destruct (rgb_cell_formattable (rgb_cell_of red_shifted before v)); [|done].
  cbn [andb]. rewrite IH. unfold rgb_formattable.
  destruct (forallb _ _); [|done].
  cbn [fmap list_fmap concat]. by rewrite <- !app_assoc.
Qed.

(** In full-color mode [update] prints HOME and the text of the cells,
    with red decoded as [val >> 16], when every component can be formatted,
    and raises [ValueError] before it prints otherwise. *)
Lemma update_rgb_run s m :
  _mode (window s) = Some m ->
  Mode.has Mode.bw m = false ->
  color_flag m = false ->
  run update s =
  if rgb_formattable (rgb_cells red_shifted (_disp_buffer (window s)))
  then (printed (HOME ++ concat (rgb_cell_text <$>
                  rgb_cells red_shifted (_disp_buffer (window s)))) s, Ok tt)
  else (s, Raise ValueError).
Proof.
  intros Hm Hbw Hix. rewrite <- indexed_flags in Hix. unfold Mode.has in Hbw, Hix.
  unfold run, update. cbv zeta.
  rewrite bind_mode_and, Hm, Hbw, bind_assoc, bind_mode_and, Hm, Hix.
  rewrite bind_assoc, bind_getattr, bind_assoc.
  change (-1) with (previous_value []).
  unfold bind at 1. rewrite (rgb_loop s [] _ HOME).
  unfold rgb_cells. by destruct (rgb_formattable _).
Qed.

Lemma rgb_cells_lookup red buf k :
  rgb_cells red buf !! k = rgb_cell_of red (take k buf) <$> buf !! k.
Proof. unfold rgb_cells, rgb_cells_from. by rewrite list_lookup_imap. Qed.

(** The frame can be formatted when the red component can be, of every
    pixel that starts a new color. *)
Lemma rgb_formattable_spec red buf :
  rgb_formattable (rgb_cells red buf) = true <->
  forall k val, buf !! k = Some val -> val <> 0 -> val <> previous_value (take k buf) ->
    formattable (red val) = true.
Proof.
  unfold rgb_formattable. rewrite forallb_forall. split.
  - intros Hall k val Hk Hzero Hprev.
    specialize (Hall (rgb_cell_of red (take k buf) val)).
    rewrite rgb_cell_of_formattable in Hall.
    apply Z.eqb_neq in Hzero, Hprev. rewrite Hzero, Hprev in Hall. apply Hall.
    apply list_elem_of_In, list_elem_of_lookup. exists k.
    by rewrite rgb_cells_lookup, Hk.
  - intros Hall c [k Hk]%list_elem_of_In%list_elem_of_lookup.
    rewrite rgb_cells_lookup in Hk.
    destruct (buf !! k) as [val|] eqn:Hval; [|done].
    apply (inj Some) in Hk as <-. rewrite rgb_cell_of_formattable.
    destruct (Z.eqb_spec val 0) as [|Hzero]; [done|].
    destruct (Z.eqb_spec val (previous_value (take k buf))) as [|Hprev]; [done|].
    by apply (Hall k).
Qed.

(** It cannot when the red component cannot, of one such pixel. *)
Lemma rgb_unformattable_spec red buf :
  rgb_formattable (rgb_cells red buf) = false <->
  exists k val, buf !! k = Some val /\ val <> 0 /\ val <> previous_value (take k buf) /\
    formattable (red val) = false.
Proof.
  split.
  - intros Hfalse.
    assert (Hex : Exists (fun c => rgb_cell_formattable c = false) (rgb_cells red buf)).
    { unfold rgb_formattable in Hfalse.
      induction (rgb_cells red buf) as [|c l IH]; [done|].
      cbn [forallb] in Hfalse. destruct (rgb_cell_formattable c) eqn:Hc.
      - apply Exists_cons_tl, IH, Hfalse.
      - by apply Exists_cons_hd. }
    apply Exists_exists in Hex as (c & [k Hk]%list_elem_of_In%list_elem_of_lookup & Hc).
    rewrite rgb_cells_lookup in Hk.
    destruct (buf !! k) as [val|] eqn:Hval; [|done].
    apply (inj Some) in Hk as <-. rewrite rgb_cell_of_formattable in Hc.
    exists k, val.
    destruct (Z.eqb_spec val 0); [done|].
    by destruct (Z.eqb_spec val (previous_value (take k buf))).
  - intros (k & val & Hk & Hzero & Hprev & Hred).
    destruct (rgb_formattable (rgb_cells red buf)) eqn:Hfmt; [|done].
    rewrite rgb_formattable_spec in Hfmt. by rewrite (Hfmt k val) in Hred.
Qed.

(** On a packed 24-bit value the shift alone yields the red byte. *)
Lemma red_shifted_masked val : packed_rgb val -> red_shifted val = red_masked val.
Proof.
  intros [Hlo Hhi]. unfold red_shifted, red_masked.
  change 0xFF with (Z.ones 8). rewrite Z.land_ones by lia.
  rewrite Z.shiftr_div_pow2 by lia.
  symmetry. apply Z.mod_small. split.
  - apply Z.div_pos; lia.
  - apply Z.div_lt_upper_bound; lia.
Qed.

Lemma rgb_cells_from_packed before rest :
  Forall packed_rgb rest ->
  rgb_cells_from red_shifted before rest = rgb_cells_from red_masked before rest.
Proof.
  intros Hrest. unfold rgb_cells_from. apply imap_ext. intros k v Hk.
  cbn. unfold rgb_cell_of. rewrite red_shifted_masked; [done|].
  rewrite Forall_forall in Hrest. apply Hrest. apply list_elem_of_In.
  by apply list_elem_of_lookup_2 with k.
Qed.

(** Whatever the pixels are, the masked components can be formatted. *)
Lemma rgb_masked_formattable buf : rgb_formattable (rgb_cells red_masked buf) = true.
Proof.
  apply rgb_formattable_spec. intros k val _ _ _.
  apply formattable_byte, land_byte.
Qed.

Lemma update_rgb_packed_run s m :
  _mode (window s) = Some m ->
  Mode.has Mode.bw m = false ->
  color_flag m = false ->
  Forall packed_rgb (_disp_buffer (window s)) ->
  rgb_as_specified s.
Proof.
  intros Hm Hbw Hix Hpacked. unfold rgb_as_specified.
  rewrite (update_rgb_run s m Hm Hbw Hix).
  unfold rgb_cells. rewrite rgb_cells_from_packed by done.
  fold (rgb_cells red_masked (_disp_buffer (window s))).
  by rewrite rgb_masked_formattable.
Qed.

(** C2, for any buffer: in full-color mode (neither [bw] nor an indexed
    flag set) [update] prints HOME and then the text of one cell per pixel,
    unless the red component [value >> 16] of a pixel that starts a new
    color has more than 4300 digits, when it raises [ValueError] and prints
    nothing.  The cell of every pixel of value 0 is a space.  The cell of
    every pixel whose value is a packed 24-bit color
    ([0 < value < 2 ^ 24]) is ESC [38;2;r;g;b m and a block with
    r = [value >> 16 & 0xFF], g = [value >> 8 & 0xFF], b = [value & 0xFF]
    when the value differs from the previous nonzero one, a bare block when
    it repeats it, and such a pixel never stands in the way of the frame.
    A buffer of packed values only is printed as the specification has it;
    [0xFF0000] decodes to 255, 0, 0. *)
Theorem update_rgb s m :
  _mode (window s) = Some m ->
  Mode.has Mode.bw m = false ->
  color_flag m = false ->
  let buf := _disp_buffer (window s) in
  let cells := rgb_cells red_shifted buf in
  run update s =
    (if rgb_formattable cells
     then (printed (HOME ++ concat (rgb_cell_text <$> cells)) s, Ok tt)
     else (s, Raise ValueError)) /\
  (rgb_formattable cells = true <->
   forall k val, buf !! k = Some val -> val <> 0 -> val <> previous_value (take k buf) ->
     formattable (Z.shiftr val 16) = true) /\
  length cells = length buf /\
  (forall k, buf !! k = Some 0 -> cells !! k = Some Dark) /\
  (forall k val, buf !! k = Some val -> 0 < val < 2 ^ 24 ->
     cells !! k =
       Some (if val =? previous_value (take k buf) then Same
             else Lit (Z.land (Z.shiftr val 16) 0xFF)
                      (Z.land (Z.shiftr val 8) 0xFF)
                      (Z.land val 0xFF)) /\
     formattable (Z.shiftr val 16) = true) /\
  (Forall packed_rgb buf ->
     cells = rgb_cells red_masked buf /\
     run update s = (printed (HOME ++ concat (rgb_cell_text <$> cells)) s, Ok tt)) /\
  rgb_cell_text Dark = SPACE /\
  rgb_cell_text Same = BLOCK /\
  (forall red green blue,
     rgb_cell_text (Lit red green blue) =
     ESC ++ lit "[38;2;" ++ decimal red ++ lit ";" ++ decimal green ++
     lit ";" ++ decimal blue ++ lit "m" ++ BLOCK) /\
  rgb_cell_of red_shifted [] 0xFF0000 = Lit 255 0 0.
Proof.
  intros Hm Hbw Hix buf cells. split_and!; try reflexivity.
  - by apply update_rgb_run with m.
  - apply (rgb_formattable_spec red_shifted).
  - subst cells. unfold rgb_cells, rgb_cells_from. apply length_imap.
  - intros k Hk. subst cells. by rewrite rgb_cells_lookup, Hk.
  - intros k val Hk Hval.
    assert (Hpacked : packed_rgb val) by (unfold packed_rgb; lia).
    split.
    + subst cells. rewrite rgb_cells_lookup, Hk. cbn [fmap option_fmap option_map].
      unfold rgb_cell_of. rewrite (red_shifted_masked val Hpacked).
      destruct (Z.eqb_spec val 0); [lia|]. reflexivity.
    + fold (red_shifted val). rewrite (red_shifted_masked val Hpacked).
      apply formattable_byte, land_byte.
  - intros Hpacked.
    assert (Hcells : cells = rgb_cells red_masked buf).
    { subst cells. unfold rgb_cells. by apply rgb_cells_from_packed. }
    split; [done|]. rewrite Hcells. by apply update_rgb_packed_run with m.
Qed.

Lemma update_rgb_witness :
  _mode (window sample_mixed) = Some 0%N /\
  _disp_buffer (window sample_mixed) = [0x1000000; 0xFF0000] /\
  rgb_cells red_shifted [0x1000000; 0xFF0000] = [Lit 256 0 0; Lit 255 0 0] /\
  run update sample_mixed =
    (printed (HOME ++ ESC ++ lit "[38;2;256;0;0m" ++ BLOCK ++
              ESC ++ lit "[38;2;255;0;0m" ++ BLOCK) sample_mixed, Ok tt).
Proof.
  split_and!; [reflexivity..|].
  rewrite (proj1 (update_rgb sample_mixed 0%N eq_refl eq_refl eq_refl)).
  reflexivity.
Defined.

(** What [update] prints for a pixel with bit 24 set: the red component
    256 for [0x1000000], where [value >> 16 & 0xFF] is 0; green and blue
    are masked, red is only shifted. *)
Lemma update_rgb_red_unmasked :
  run update sample_wide = (printed (HOME ++ escape_text 256 0 0) sample_wide, Ok tt) /\
  _disp_buffer (window sample_wide) = [0x1000000] /\
  red_shifted 0x1000000 = 256 /\
  red_masked 0x1000000 = 0.
Proof.
  split_and!; [|reflexivity..].
  rewrite (update_rgb_run sample_wide 0%N eq_refl eq_refl eq_refl). reflexivity.
Qed.

(** C2, as stated for every pixel value, fails: the frame of the single
    pixel [0x1000000] is not the one with the masked red component. *)
Lemma wide_pixel_red_not_masked : ~ rgb_as_specified sample_wide.
Proof.
  unfold rgb_as_specified.
  rewrite (update_rgb_run sample_wide 0%N eq_refl eq_refl eq_refl).
  intros H. apply (f_equal (fun r => terminal (fst r))) in H.
  lazy in H. discriminate H.
Qed.

(** ** Braille *)

Lemma range_elem start stop step x :
  0 < step -> x ∈ range start stop step ->
  exists k, 0 <= k /\ x = start + step * k /\ x < stop.
Proof.
  intros Hstep (k & -> & Hk)%list_elem_of_fmap.
  apply elem_of_seqZ in Hk. exists k. split; [lia|]. split; [done|].
  pose proof (Z.mul_div_le (stop - start + step - 1) step Hstep). nia.
Qed.

Lemma length_range_multiple n step :
  0 < step -> 0 <= n -> length (range 0 (step * n) step) = Z.to_nat n.
Proof.
  intros Hstep Hn. unfold range. rewrite length_fmap, length_seqZ. f_equal.
  replace (step * n - 0 + step - 1) with (n * step + (step - 1)) by lia.
  rewrite Z.div_add_l by lia. rewrite Z.div_small; lia.
Qed.

Lemma getitem_sub_pixel (buf : list Z) (w h x y i : Z) :
  Z.of_nat (length buf) = w * h ->
  0 <= x < w -> 0 <= y < h -> i = x + y * w ->
  getitem buf i = Ok (sub_pixel buf w x y).
Proof.
  intros Hlen Hx Hy ->.
  destruct (getitem_in_range buf (x + y * w)) as (v & Hv & ->); [nia|].
  unfold sub_pixel. by rewrite Hv.
Qed.

(** One tile inside the grid: the eight reads succeed, and what remains
    is the conversion of the sum to a character. *)
Lemma braille_tile_run s yo xo output :
  buffer_sized (window s) ->
  0 <= xo -> xo + 1 < _width (window s) ->
  0 <= yo -> yo + 3 < _height (window s) ->
  braille_tile yo output xo s =
  bind (lift (chr (tile_sum (_disp_buffer (window s)) (_width (window s)) xo yo + 0x2800)))
       (fun c => ret (output ++ c)) s.
Proof.
  intros Hsized Hx0 Hx1 Hy0 Hy1. unfold braille_tile.
  rewrite !bind_getattr.
  set (w := _width (window s)) in *. set (buf := _disp_buffer (window s)) in *.
  rewrite (getitem_sub_pixel buf w _ xo yo _ Hsized), bind_lift_ok by lia.
  rewrite (getitem_sub_pixel buf w _ (xo + 1) yo _ Hsized), bind_lift_ok by lia.
  rewrite (getitem_sub_pixel buf w _ xo (yo + 1) _ Hsized), bind_lift_ok by lia.
  rewrite (getitem_sub_pixel buf w _ (xo + 1) (yo + 1) _ Hsized), bind_lift_ok by lia.
  rewrite (getitem_sub_pixel buf w _ xo (yo + 2) _ Hsized), bind_lift_ok by lia.
  rewrite (getitem_sub_pixel buf w _ (xo + 1) (yo + 2) _ Hsized), bind_lift_ok by lia.
  rewrite (getitem_sub_pixel buf w _ xo (yo + 3) _ Hsized), bind_lift_ok by lia.
  rewrite (getitem_sub_pixel buf w _ (xo + 1) (yo + 3) _ Hsized), bind_lift_ok by lia.
  reflexivity.
Qed.

Lemma sub_pixel_bit buf w x y : Forall is_bit buf -> is_bit (sub_pixel buf w x y).
Proof.
  intros Hbits. unfold sub_pixel.
  destruct (buf !! Z.to_nat (x + y * w)) as [v|] eqn:Hv; [|by left].
  cbn. rewrite Forall_forall in Hbits. apply Hbits, list_elem_of_In.
  by apply list_elem_of_lookup_2 with (Z.to_nat (x + y * w)).
Qed.

Lemma packed_byte_unfold buf w xo yo :
  packed_byte buf w xo yo =
  (if truthy (sub_pixel buf w xo yo) then 1 else 0) +
  (if truthy (sub_pixel buf w (xo + 1) yo) then 8 else 0) +
  (if truthy (sub_pixel buf w xo (yo + 1)) then 2 else 0) +
  (if truthy (sub_pixel buf w (xo + 1) (yo + 1)) then 16 else 0) +
  (if truthy (sub_pixel buf w xo (yo + 2)) then 4 else 0) +
  (if truthy (sub_pixel buf w (xo + 1) (yo + 2)) then 32 else 0) +
  (if truthy (sub_pixel buf w xo (yo + 3)) then 64 else 0) +
  (if truthy (sub_pixel buf w (xo + 1) (yo + 3)) then 128 else 0).
Proof.
  unfold packed_byte, dots. cbn [foldr]. rewrite !Z.add_0_r.
  change (2 ^ 0) with 1. change (2 ^ 1) with 2. change (2 ^ 2) with 4.
  change (2 ^ 3) with 8. change (2 ^ 4) with 16. change (2 ^ 5) with 32.
  change (2 ^ 6) with 64. change (2 ^ 7) with 128.
  lia.
Qed.

Lemma shiftl_bit v k :
  is_bit v -> 0 <= k -> Z.shiftl v k = if truthy v then 2 ^ k else 0.
Proof.
  intros [-> | ->] Hk; cbn [truthy Z.eqb negb].
  - apply Z.shiftl_0_l.
  - rewrite Z.shiftl_mul_pow2 by done. lia.
Qed.

Lemma bit_truthy v : is_bit v -> v = if truthy v then 1 else 0.
Proof. by intros [-> | ->]. Qed.

(** On pixels that are 0 or 1 the sum is the packed byte. *)
Lemma tile_sum_bits buf w xo yo :
  Forall is_bit buf -> tile_sum buf w xo yo = packed_byte buf w xo yo.
Proof.
  intros Hbits. rewrite packed_byte_unfold. unfold tile_sum.
  rewrite !shiftl_bit by (try apply sub_pixel_bit; done).
  rewrite (bit_truthy (sub_pixel buf w xo yo)) at 1 by by apply sub_pixel_bit.
  reflexivity.
Qed.

Lemma packed_byte_bound buf w xo yo : 0 <= packed_byte buf w xo yo < 256.
Proof.
  rewrite packed_byte_unfold.
  repeat match goal with |- context [truthy ?p] => destruct (truthy p) end; lia.
Qed.

(** Each dot of a tile sits at the bit position of its offset. *)
Lemma packed_byte_testbit buf w xo yo dx dy bit :
  (dx, dy, bit) ∈ dots ->
  Z.testbit (packed_byte buf w xo yo) bit = truthy (sub_pixel buf w (xo + dx) (yo + dy)).
Proof.
  intros Hdot. rewrite packed_byte_unfold.
  unfold dots in Hdot. rewrite !elem_of_cons in Hdot.
  assert (Hcases :
    (dx, dy, bit) = (0, 0, 0) \/ (dx, dy, bit) = (1, 0, 3) \/ (dx, dy, bit) = (0, 1, 1) \/
    (dx, dy, bit) = (1, 1, 4) \/ (dx, dy, bit) = (0, 2, 2) \/ (dx, dy, bit) = (1, 2, 5) \/
    (dx, dy, bit) = (0, 3, 6) \/ (dx, dy, bit) = (1, 3, 7)).
  { rewrite elem_of_nil in Hdot. tauto. }
  clear Hdot.
  repeat destruct Hcases as [Hcases|Hcases].
  all: injection Hcases as -> -> ->; rewrite ?Z.add_0_r.
  all: generalize (truthy (sub_pixel buf w xo yo)),
         (truthy (sub_pixel buf w (xo + 1) yo)),
         (truthy (sub_pixel buf w xo (yo + 1))),
         (truthy (sub_pixel buf w (xo + 1) (yo + 1))),
         (truthy (sub_pixel buf w xo (yo + 2))),
         (truthy (sub_pixel buf w (xo + 1) (yo + 2))),
         (truthy (sub_pixel buf w xo (yo + 3))),
         (truthy (sub_pixel buf w (xo + 1) (yo + 3))).
  all: by intros [] [] [] [] [] [] [] [].
Qed.

(** What [chr] does with a number: a character for a code point,
    [ValueError] for another number that fits a C [int], [OverflowError]
    for the rest. *)
Lemma chr_outcome n :
  (code_point n /\ chr n = Ok [n]) \/
  (fits_int n /\ ~ code_point n /\ chr n = Raise ValueError) \/
  (~ fits_int n /\ chr n = Raise OverflowError).
Proof.
  unfold chr, code_point, fits_int.
  destruct (Z.ltb_spec n (- 2 ^ 31)); [right; right; split; [lia|done]|].
  destruct (Z.ltb_spec (2 ^ 31 - 1) n); [right; right; split; [lia|done]|].
  cbn [orb].
  destruct (Z.leb_spec 0 n); [|right; left; split_and!; try lia; done].
  destruct (Z.leb_spec n 0x10FFFF); [|right; left; split_and!; try lia; done].
  left. split; [lia|done].
Qed.

Lemma chr_code_point n : code_point n -> chr n = Ok [n].
Proof.
  intros Hn. destruct (chr_outcome n) as [[_ H]|[(_ & H & _)|[H _]]]; [done|done|].
  destruct H. unfold fits_int, code_point in *. lia.
Qed.

Lemma chr_braille byte : 0 <= byte < 256 -> chr (byte + 0x2800) = Ok [0x2800 + byte].
Proof.
  intros Hbyte. rewrite chr_code_point by (unfold code_point; lia).
  by rewrite Z.add_comm.
Qed.

Lemma braille_tile_bits s yo xo output :
  buffer_sized (window s) ->
  Forall is_bit (_disp_buffer (window s)) ->
  0 <= xo -> xo + 1 < _width (window s) ->
  0 <= yo -> yo + 3 < _height (window s) ->
  braille_tile yo output xo s =
  (s, Ok (output ++
          [0x2800 + packed_byte (_disp_buffer (window s)) (_width (window s)) xo yo])).
Proof.
  intros Hsized Hbits Hx0 Hx1 Hy0 Hy1.
  rewrite braille_tile_run, tile_sum_bits by done.
  by rewrite chr_braille, bind_lift_ok by apply packed_byte_bound.
Qed.

Lemma braille_row_bits s yo output c :
  buffer_sized (window s) ->
  Forall is_bit (_disp_buffer (window s)) ->
  _width (window s) = 2 * c ->
  0 <= yo -> yo + 3 < _height (window s) ->
  braille_row output yo s =
  (s, Ok (output ++
          concat ((fun xo => [0x2800 + packed_byte (_disp_buffer (window s))
                                         (_width (window s)) xo yo])
                  <$> range 0 (_width (window s)) 2))).
Proof.
  intros Hsized Hbits Hw Hy0 Hy1. unfold braille_row. rewrite bind_getattr.
  apply for_in_appends. intros acc xo Hxo.
  apply range_elem in Hxo as (k & Hk & -> & Hlt); [|lia].
  apply braille_tile_bits; try done; lia.
Qed.

Lemma length_concat_const {A B} (f : A -> list B) (l : list A) (n : nat) :
  (forall x, length (f x) = n) -> length (concat (f <$> l)) = (length l * n)%nat.
Proof.
  intros Hf. induction l as [|x l IH]; [done|].
  cbn [fmap list_fmap concat]. rewrite length_app, IH, Hf. cbn. lia.
Qed.

(** The braille frame of a grid of [c] by [r] tiles whose pixels are 0
    or 1: HOME and then one character [0x2800 + packed_byte] per tile, row
    by row, [(height / 4) * (width / 2)] characters in all. *)
Lemma update_braille_bits s m c r :
  _mode (window s) = Some m ->
  Mode.has Mode.bw m = true ->
  Mode.has Mode.high_res m = true ->
  buffer_sized (window s) ->
  _width (window s) = 2 * c -> _height (window s) = 4 * r ->
  0 <= c -> 0 <= r ->
  Forall is_bit (_disp_buffer (window s)) ->
  let frame := braille_frame (_disp_buffer (window s)) (_width (window s))
                 (_height (window s)) in
  run update s = (printed (HOME ++ frame) s, Ok tt) /\
  Z.of_nat (length frame) = (_height (window s) `div` 4) * (_width (window s) `div` 2).
Proof.
  intros Hm Hbw Hhr Hsized Hw Hh Hc Hr Hbits frame. split.
  - unfold Mode.has in Hbw, Hhr. unfold run, update. cbv zeta.
    rewrite bind_mode_and, Hm, Hbw, bind_assoc, bind_mode_and, Hm, Hhr.
    cbn [negb]. rewrite bind_assoc, bind_getattr.
    rewrite (bind_run_ok _ _ s s (HOME ++ frame)); [done|].
    apply (for_in_appends (range 0 (_height (window s)) 4) braille_row
             (fun yo => concat ((fun xo => [0x2800 + packed_byte (_disp_buffer (window s))
                                                      (_width (window s)) xo yo])
                                <$> range 0 (_width (window s)) 2))).
    intros acc yo Hyo. apply range_elem in Hyo as (k & Hk & -> & Hlt); [|lia].
    apply braille_row_bits with c; try done; lia.
  - subst frame. unfold braille_frame.
    rewrite (length_concat_const _ _ (Z.to_nat c)).
    + rewrite Hh, Hw, !length_range_multiple by lia.
      rewrite !(Z.mul_comm _ c), !(Z.mul_comm _ r), !Z.div_mul by lia. nia.
    + intros yo. rewrite (length_concat_const _ _ 1%nat) by done.
      rewrite Hw, length_range_multiple by lia. lia.
Qed.

(** X15: from [initialize] to the braille frame: on a sized terminal, a
    [bw] + [high_res] window that received, by [copy_buffer], a buffer of
    0s and 1s of the right length prints the cursor-home sequence and one
    braille character per 2x4 tile, row by row, each with exactly the dots
    of its lit pixels: as many characters as the terminal has cells. *)
Theorem update_braille_initialized s0 mode buf :
  terminal_sized (window s0) ->
  Mode.has Mode.bw mode = true ->
  Mode.has Mode.high_res mode = true ->
  Z.of_nat (length buf) = (_terminal_width (window s0) * 2) * (_terminal_height (window s0) * 4) ->
  Forall is_bit buf ->
  let s := fst (run (initialize mode ;; copy_buffer buf) s0) in
  let frame := braille_frame buf (_terminal_width (window s0) * 2)
                 (_terminal_height (window s0) * 4) in
  run update s = (printed (HOME ++ frame) s, Ok tt) /\
  Z.of_nat (length frame) = _terminal_height (window s0) * _terminal_width (window s0).
Proof.
  intros [Htw Hth] Hbw Hhr Hlen Hbits s frame.
  assert (Hs : s = with_buffer buf (initialized mode s0)).
  { subst s. rewrite run_bind, initialize_run. unfold rejected. rewrite Hbw, Hhr. cbn [negb andb].
    rewrite copy_buffer_run. cbn [initialized window _width _height]. rewrite Hhr.
    by rewrite (proj2 (Z.eqb_eq _ _) Hlen). }
  assert (Hw : _width (window s) = 2 * _terminal_width (window s0)).
  { rewrite Hs. cbn. rewrite Hhr. lia. }
  assert (Hh : _height (window s) = 4 * _terminal_height (window s0)).
  { rewrite Hs. cbn. rewrite Hhr. lia. }
  assert (Hbuf : _disp_buffer (window s) = buf) by by rewrite Hs.
  assert (Hsized : buffer_sized (window s)).
  { unfold buffer_sized. rewrite Hbuf, Hw, Hh. lia. }
  assert (Hmode : _mode (window s) = Some mode) by by rewrite Hs.
  rewrite <- Hbuf in Hbits.
  destruct (update_braille_bits s mode _ _ Hmode Hbw Hhr Hsized Hw Hh Htw Hth Hbits) as [Hrun Hcount].
  rewrite Hbuf, Hw, Hh in Hrun, Hcount.
  rewrite !(Z.mul_comm _ 2), !(Z.mul_comm _ 4) in *.
  subst frame. rewrite !(Z.mul_comm _ 2), !(Z.mul_comm _ 4).
  split; [done|]. rewrite Hcount.
  by rewrite !(Z.mul_comm 2), !(Z.mul_comm 4), !Z.div_mul by lia.
Qed.

(** The three tiles the specification names: all dark, only (0,0) lit,
    only (1,3) lit. *)
Lemma braille_named_tiles :
  (let s := sample_tile [0; 0; 0; 0; 0; 0; 0; 0] in
   run update s = (printed (HOME ++ [0x2800]) s, Ok tt)) /\
  (let s := sample_tile [1; 0; 0; 0; 0; 0; 0; 0] in
   run update s = (printed (HOME ++ [0x2801]) s, Ok tt)) /\
  (let s := sample_tile [0; 0; 0; 0; 0; 0; 0; 1] in
   run update s = (printed (HOME ++ [0x2880]) s, Ok tt)).
Proof. split_and!; reflexivity. Qed.

(** C1 at a lit pixel whose value is not 1: with only the sub-pixel (0,0)
    set, to the value 2, braille [update] prints U+2802, the dot of offset
    (0,1), where the packed truth values give U+2801; the sum is formed
    from the raw values.  Plain [bw] rendering shows the same pixel lit. *)
Theorem update_braille_adds_raw_values :
  let s := sample_tile [2; 0; 0; 0; 0; 0; 0; 0] in
  run update s = (printed (HOME ++ [0x2802]) s, Ok tt) /\
  _disp_buffer (window s) = [2; 0; 0; 0; 0; 0; 0; 0] /\
  braille_frame (_disp_buffer (window s)) (_width (window s)) (_height (window s)) = [0x2801] /\
  tile_sum (_disp_buffer (window s)) (_width (window s)) 0 0 = 2 /\
  bw_glyph 2 = 0x2588.
Proof. split_and!; reflexivity. Qed.

(** * Further properties of the methods *)

(** ** Drawing *)

Lemma with_buffer_same s : with_buffer (_disp_buffer (window s)) s = s.
Proof. by destruct s as [[] ? ?]. Qed.

Lemma with_buffer_twice buf buf' s : with_buffer buf (with_buffer buf' s) = with_buffer buf s.
Proof. reflexivity. Qed.

(** The three ways a [plot] can end, on any world. *)
Lemma plot_cases s x y v :
  run (plot x y v) s = (s, Ok tt) \/
  run (plot x y v) s = (s, Raise IndexError) \/
  (1 <= x < _width (window s) /\ 1 <= y < _height (window s)) /\
  0 <= x + y * _width (window s) < Z.of_nat (length (_disp_buffer (window s))) /\
  run (plot x y v) s =
  (with_buffer (<[Z.to_nat (x + y * _width (window s)) := v]> (_disp_buffer (window s))) s,
   Ok tt).
Proof.
  destruct (decide (1 <= x < _width (window s) /\ 1 <= y < _height (window s)))
    as [[Hx Hy]|Hout]; [|left; by apply plot_outside].
  right. unfold run, plot. step.
  rewrite (proj2 (plot_guard _ _ _ _) (conj Hx Hy)). step.
  destruct (decide (x + y * _width (window s) < Z.of_nat (length (_disp_buffer (window s)))))
    as [Hlt|Hge].
  - right. split; [done|]. split; [nia|].
    rewrite setitem_in_range by nia. by step.
  - left. unfold setitem, subscript.
    destruct (x + y * _width (window s) <? 0) eqn:Hneg; [nia|].
    destruct ((0 <=? _) && (_ <? _)) eqn:Hin; [|done].
    apply andb_true_iff in Hin as [_ Hin]. lia.
Qed.

(** X1: [clear] never raises, on any window: it leaves a buffer of
    [width * height] entries (none when the product is negative), every
    one 0, and changes nothing else; on a window whose buffer has
    [width * height] entries the length of the buffer stays what it was. *)
Theorem clear_resets_every_pixel s :
  exists buf',
    run clear s = (with_buffer buf' s, Ok tt) /\
    length buf' = Z.to_nat (_width (window s) * _height (window s)) /\
    (forall i, (i < length buf')%nat -> buf' !! i = Some 0) /\
    (buffer_sized (window s) -> length buf' = length (_disp_buffer (window s))).
Proof.
  eexists. split; [apply clear_run|]. split_and!.
  - apply length_replicate.
  - intros i Hi. rewrite length_replicate in Hi. by apply lookup_replicate_2.
  - intros Hsized. rewrite length_replicate. unfold buffer_sized in Hsized. lia.
Qed.

Lemma clear_resets_every_pixel_witness :
  buffer_sized (window sample_bw) /\
  _disp_buffer (window sample_bw) = [0; 0; 0; 0; 0; 7; 1; 0] /\
  ~ buffer_sized (window (with_buffer [7] sample_bw)) /\
  exists buf',
    run clear (with_buffer [7] sample_bw) =
      (with_buffer buf' (with_buffer [7] sample_bw), Ok tt) /\
    length buf' = 8%nat /\
    (forall i, (i < length buf')%nat -> buf' !! i = Some 0) /\
    (buffer_sized (window (with_buffer [7] sample_bw)) -> length buf' = 1%nat).
Proof.
  split; [reflexivity|]. split; [reflexivity|]. split; [by vm_compute|].
  exact (clear_resets_every_pixel (with_buffer [7] sample_bw)).
Defined.

(** A drawing call changes at most the buffer and the terminal. *)
Lemma perform_keeps_setup c s :
  keeps_setup c = true ->
  exists buf' term',
    fst (run (perform c) s) =
    {| window := window (with_buffer buf' s); tables := tables s; terminal := term' |}.
Proof.
  intros Hc. destruct c as [mode|x y v|buf| |]; [done|..]; cbn [perform].
  - destruct (plot_cases s x y v) as [->|[->|(_ & _ & ->)]]; cbn [fst].
    + exists (_disp_buffer (window s)), (terminal s). by destruct s as [[] ? ?].
    + exists (_disp_buffer (window s)), (terminal s). by destruct s as [[] ? ?].
    + by eexists _, _.
  - rewrite copy_buffer_run. destruct (_ =? _); cbn [fst].
    + by eexists _, _.
    + exists (_disp_buffer (window s)), (terminal s). by destruct s as [[] ? ?].
  - rewrite clear_run. by eexists _, _.
  - destruct (update_outcome s) as [[output ->]|[e ->]]; cbn [fst].
    + exists (_disp_buffer (window s)), (terminal s ++ [Stdout output]).
      by rewrite with_buffer_same.
    + exists (_disp_buffer (window s)), (terminal s). by destruct s as [[] ? ?].
Qed.

Lemma after_keeps_setup calls s :
  forallb keeps_setup calls = true ->
  exists buf' term',
    after calls s =
    {| window := window (with_buffer buf' s); tables := tables s; terminal := term' |}.
Proof.
  revert s. induction calls as [|c calls IH]; intros s Hcalls.
  - exists (_disp_buffer (window s)), (terminal s). by destruct s as [[] ? ?].
  - cbn in Hcalls. apply andb_true_iff in Hcalls as [Hc Hcalls].
    cbn [after fold_left].
    destruct (perform_keeps_setup c s Hc) as (buf1 & term1 & ->).
    match goal with |- context [fold_left _ calls ?s1] =>
      destruct (IH s1 Hcalls) as (buf2 & term2 & H) end.
    unfold after in H. rewrite H. by exists buf2, term2.
Qed.

(** X2: [clear] erases whatever was drawn: after any sequence of [plot],
    [copy_buffer], [clear] and [update] calls, succeeding or not, [clear]
    leaves the same attributes as [clear] called at once. *)
Theorem clear_erases_drawing calls s :
  forallb keeps_setup calls = true ->
  window (fst (run clear (after calls s))) = window (fst (run clear s)).
Proof.
  intros Hcalls. destruct (after_keeps_setup calls s Hcalls) as (buf' & term' & ->).
  by rewrite !clear_run.
Qed.

Lemma clear_erases_drawing_witness :
  let calls := [Plot 1 1 5; Copy_buffer [1; 2; 3]; Update; Plot 3 1 2; Clear; Plot 2 1 1] in
  _disp_buffer (window (after calls sample_bw)) = [0; 0; 0; 0; 0; 0; 1; 0] /\
  window (fst (run clear (after calls sample_bw))) = window (fst (run clear sample_bw)).
Proof.
  split; [reflexivity|].
  exact (clear_erases_drawing
           [Plot 1 1 5; Copy_buffer [1; 2; 3]; Update; Plot 3 1 2; Clear; Plot 2 1 1]
           sample_bw eq_refl).
Defined.

Lemma plot_keeps_border s x y v i :
  Z.of_nat i < _width (window s) \/ Z.of_nat i `mod` _width (window s) = 0 ->
  _disp_buffer (window (fst (run (plot x y v) s))) !! i = _disp_buffer (window s) !! i /\
  _width (window (fst (run (plot x y v) s))) = _width (window s).
Proof.
  intros Hborder.
  destruct (plot_cases s x y v) as [->|[->|([Hx Hy] & Hidx & ->)]]; [done..|].
  split; [|done]. cbn. apply list_lookup_insert_ne. intros Heq.
  assert (Hi : Z.of_nat i = x + y * _width (window s)) by lia.
  destruct Hborder as [Hrow|Hcol]; [nia|].
  rewrite Hi, Z.mod_add, Z.mod_small in Hcol by lia. lia.
Qed.

(** X3: [plot] never writes row 0 or column 0: whatever [plot] calls are
    made, with whatever arguments, the pixels whose index is below [width]
    or a multiple of [width] keep their values. *)
Theorem plot_never_writes_first_row_or_column calls s i :
  forallb is_plot calls = true ->
  Z.of_nat i < _width (window s) \/ Z.of_nat i `mod` _width (window s) = 0 ->
  _disp_buffer (window (after calls s)) !! i = _disp_buffer (window s) !! i.
Proof.
  revert s. induction calls as [|c calls IH]; intros s Hcalls Hborder; [done|].
  cbn in Hcalls. apply andb_true_iff in Hcalls as [Hc Hcalls].
  destruct c as [|x y v| | |]; try done. cbn [after fold_left perform].
  destruct (plot_keeps_border s x y v i Hborder) as [Hbuf Hw].
  rewrite <- Hbuf. apply IH; [done|]. by rewrite Hw.
Qed.

Lemma plot_never_writes_first_row_or_column_witness :
  let calls := [Plot 0 0 9; Plot 1 0 9; Plot 0 1 9; Plot 1 1 9; Plot 3 2 9; Plot 4 1 9] in
  _disp_buffer (window (after calls sample_dark)) = [0; 0; 0; 0; 0; 9; 0; 0; 0; 0; 0; 9] /\
  _disp_buffer (window (after calls sample_dark)) !! 4%nat =
    _disp_buffer (window sample_dark) !! 4%nat.
Proof.
  split; [reflexivity|].
  apply (plot_never_writes_first_row_or_column
           [Plot 0 0 9; Plot 1 0 9; Plot 0 1 9; Plot 1 1 9; Plot 3 2 9; Plot 4 1 9]
           sample_dark 4 eq_refl).
  right. reflexivity.
Defined.

Lemma with_buffer_sized buf s :
  length buf = length (_disp_buffer (window s)) ->
  buffer_sized (window s) -> buffer_sized (window (with_buffer buf s)).
Proof. unfold buffer_sized. cbn. by intros ->. Qed.

Lemma plot_index_inj x y x' y' w :
  0 <= x < w -> 0 <= x' < w -> x + y * w = x' + y' * w -> x = x' /\ y = y'.
Proof. intros Hx Hx' Heq. assert (y = y') by nia. subst. lia. Qed.

(** X4: on a window whose buffer has [width * height] entries, two
    writes to one writable pixel leave the value of the second, and writes
    to two different writable pixels give the same world in either order. *)
Theorem plot_overwrites_and_commutes s x y v x' y' v' :
  buffer_sized (window s) ->
  1 <= x < _width (window s) -> 1 <= y < _height (window s) ->
  after [Plot x y v; Plot x y v'] s = after [Plot x y v'] s /\
  (1 <= x' < _width (window s) -> 1 <= y' < _height (window s) ->
   (x', y') <> (x, y) ->
   after [Plot x y v; Plot x' y' v'] s = after [Plot x' y' v'; Plot x y v] s).
Proof.
  intros Hsized Hx Hy. cbn [after fold_left perform]. split.
  - rewrite (plot_inside s x y v) by done. cbn [fst].
    rewrite plot_inside by (try apply with_buffer_sized; try done; by rewrite length_insert).
    rewrite (plot_inside s x y v') by done. cbn.
    by rewrite list_insert_insert_eq.
  - intros Hx' Hy' Hne.
    rewrite (plot_inside s x y v), (plot_inside s x' y' v') by done. cbn [fst].
    rewrite !plot_inside by (try apply with_buffer_sized; try done; by rewrite length_insert).
    cbn. rewrite list_insert_insert_ne; [done|].
    intros Heq. apply Hne.
    pose proof (plot_index x y _ _ Hx Hy). pose proof (plot_index x' y' _ _ Hx' Hy').
    destruct (plot_index_inj x y x' y' (_width (window s))) as [-> ->]; [lia..|done].
Qed.

Lemma plot_overwrites_and_commutes_witness :
  buffer_sized (window sample_dark) /\
  _disp_buffer (window (after [Plot 2 1 7; Plot 2 1 8] sample_dark)) =
    [0; 0; 0; 0; 0; 0; 8; 0; 0; 0; 0; 0] /\
  after [Plot 2 1 7; Plot 2 1 8] sample_dark = after [Plot 2 1 8] sample_dark /\
  after [Plot 2 1 7; Plot 3 2 8] sample_dark = after [Plot 3 2 8; Plot 2 1 7] sample_dark.
Proof.
  assert (Hsized : buffer_sized (window sample_dark)) by reflexivity.
  assert (Hx : 1 <= 2 < _width (window sample_dark)) by (change (1 <= 2 < 4); lia).
  assert (Hy : 1 <= 1 < _height (window sample_dark)) by (change (1 <= 1 < 3); lia).
  split; [exact Hsized|]. split; [reflexivity|]. split.
  - exact (proj1 (plot_overwrites_and_commutes sample_dark 2 1 7 0 0 8 Hsized Hx Hy)).
  - apply (proj2 (plot_overwrites_and_commutes sample_dark 2 1 7 3 2 8 Hsized Hx Hy)).
    + change (1 <= 3 < 4). lia.
    + change (1 <= 2 < 3). lia.
    + discriminate.
Defined.

(** X5: on a window whose buffer has [width * height] entries, copying
    the current buffer back raises nothing and changes nothing; and when a
    buffer of the right length is copied after any other, accepted or
    refused, only the second one counts. *)
Theorem copy_buffer_round_trip s b1 b2 :
  buffer_sized (window s) ->
  run (copy_buffer (_disp_buffer (window s))) s = (s, Ok tt) /\
  (Z.of_nat (length b2) = _width (window s) * _height (window s) ->
   after [Copy_buffer b1; Copy_buffer b2] s = with_buffer b2 s /\
   _disp_buffer (window (after [Copy_buffer b1; Copy_buffer b2] s)) = b2).
Proof.
  intros Hsized. split.
  - rewrite copy_buffer_run. unfold buffer_sized in Hsized.
    rewrite (proj2 (Z.eqb_eq _ _) Hsized). by rewrite with_buffer_same.
  - intros Hlen. cbn [after fold_left perform]. rewrite (copy_buffer_run s b1).
    destruct (_ =? _); cbn [fst]; rewrite copy_buffer_run; cbn;
      by rewrite (proj2 (Z.eqb_eq _ _) Hlen).
Qed.

Lemma copy_buffer_round_trip_witness :
  buffer_sized (window sample_bw) /\
  run (copy_buffer (_disp_buffer (window sample_bw))) sample_bw = (sample_bw, Ok tt) /\
  _disp_buffer (window (after [Copy_buffer [1; 2; 3]; Copy_buffer [1; 1; 1; 1; 2; 2; 2; 2]]
                          sample_bw)) = [1; 1; 1; 1; 2; 2; 2; 2].
Proof.
  assert (Hsized : buffer_sized (window sample_bw)) by reflexivity.
  split; [exact Hsized|]. split.
  - exact (proj1 (copy_buffer_round_trip sample_bw [] [] Hsized)).
  - exact (proj2 (proj2 (copy_buffer_round_trip sample_bw [1; 2; 3] [1; 1; 1; 1; 2; 2; 2; 2]
                           Hsized) eq_refl)).
Defined.

(** ** Before and during [initialize] *)

Lemma class_body_fields size :
  _mode (class_body size) = None /\ _disp_buffer (class_body size) = [] /\
  _width (class_body size) = _terminal_width (class_body size) /\
  _height (class_body size) = _terminal_height (class_body size).
Proof. by destruct size as [[columns lines]|]. Qed.

Lemma setitem_past_the_end {A} (l : list A) (i : Z) (v : A) :
  Z.of_nat (length l) <= i -> setitem l i v = Raise IndexError.
Proof.
  intros Hi. unfold setitem, subscript.
  destruct (i <? 0) eqn:Hneg; [lia|].
  destruct ((0 <=? i) && (i <? Z.of_nat (length l))) eqn:Hin; [|done].
  apply andb_true_iff in Hin as [_ Hin]. lia.
Qed.

(** X6: before the first [initialize] the class is not usable for
    drawing: the mode is [None] and the buffer is empty, so [update] raises
    [TypeError] and a [plot] that passes the bounds check raises
    [IndexError]; both leave the world as it was. *)
Theorem calls_before_initialize size t term x y v :
  let s := class_world size t term in
  run update s = (s, Raise TypeError) /\
  (1 <= x < _width (window s) /\ 1 <= y < _height (window s) ->
   run (plot x y v) s = (s, Raise IndexError)).
Proof.
  intros s. destruct (class_body_fields size) as (Hmode & Hbuf & _). split.
  - unfold run, update. cbv zeta. rewrite bind_mode_and.
    subst s. cbn [class_world window]. by rewrite Hmode.
  - intros [Hx Hy]. unfold run, plot. step.
    rewrite (proj2 (plot_guard _ _ _ _) (conj Hx Hy)). step.
    subst s. cbn [class_world window] in *.
    rewrite setitem_past_the_end; [done|]. rewrite Hbuf. cbn [length]. nia.
Qed.

Lemma calls_before_initialize_witness :
  let s := class_world None sample_tables [] in
  _width (window s) = 120 /\ _height (window s) = 30 /\
  run update s = (s, Raise TypeError) /\
  run (plot 5 5 1) s = (s, Raise IndexError).
Proof.
  split; [reflexivity|]. split; [reflexivity|]. split.
  - exact (proj1 (calls_before_initialize None sample_tables [] 0 0 0)).
  - apply (proj2 (calls_before_initialize None sample_tables [] 5 5 1)).
    change (1 <= 5 < 120 /\ 1 <= 5 < 30). lia.
Defined.

(** X7: a refused [initialize] is not without effect: the mode it was
    called with stays recorded, while sizes, buffer, palette and terminal
    are as before (the screen is not cleared). *)
Theorem refused_initialize_records_mode s mode :
  snd (run (initialize mode) s) = Raise NotImplementedError ->
  fst (run (initialize mode) s) = with_mode (Some mode) s /\
  _mode (window (fst (run (initialize mode) s))) = Some mode /\
  _disp_buffer (window (fst (run (initialize mode) s))) = _disp_buffer (window s) /\
  terminal (fst (run (initialize mode) s)) = terminal s.
Proof.
  rewrite initialize_run. by destruct (rejected mode).
Qed.

Lemma refused_initialize_records_mode_witness :
  snd (run (initialize Mode.high_res) sample_bw) = Raise NotImplementedError /\
  _mode (window sample_bw) = Some Mode.bw /\
  _mode (window (fst (run (initialize Mode.high_res) sample_bw))) = Some Mode.high_res /\
  _disp_buffer (window (fst (run (initialize Mode.high_res) sample_bw))) =
    [0; 0; 0; 0; 0; 7; 1; 0].
Proof.
  pose proof (refused_initialize_records_mode sample_bw Mode.high_res eq_refl) as H.
  split; [reflexivity|]. split; [reflexivity|]. split.
  - exact (proj1 (proj2 H)).
  - exact (proj1 (proj2 (proj2 H))).
Defined.

(** X8: a successful [initialize] starts afresh: the attributes it leaves
    depend on the mode, the terminal size and the palette tables only, not
    on the earlier mode, sizes, buffer or palette; and it writes exactly the
    screen clearing and the hide-cursor sequence ESC [ ? 2 5 l. *)
Theorem initialize_starts_afresh s1 s2 mode :
  _terminal_width (window s1) = _terminal_width (window s2) ->
  _terminal_height (window s1) = _terminal_height (window s2) ->
  tables s1 = tables s2 ->
  snd (run (initialize mode) s1) = Ok tt ->
  snd (run (initialize mode) s2) = Ok tt /\
  window (fst (run (initialize mode) s1)) = window (fst (run (initialize mode) s2)) /\
  terminal (fst (run (initialize mode) s1)) =
    terminal s1 ++ [System_clear; Stdout [27; 91; 63; 50; 53; 108]].
Proof.
  intros Htw Hth Htab. rewrite !initialize_run.
  destruct (rejected mode); [done|]. intros _.
  split; [done|]. split; [|done].
  unfold initialized. cbn [fst window]. by rewrite Htw, Hth, Htab.
Qed.

Lemma initialize_starts_afresh_witness :
  _disp_buffer (window sample_indexed) = [2; 2; 0; 3] /\
  window (fst (run (initialize Mode.bw) sample_indexed)) =
    window (fst (run (initialize Mode.bw) (sample_world 2 2))).
Proof.
  split; [reflexivity|].
  exact (proj1 (proj2 (initialize_starts_afresh sample_indexed (sample_world 2 2) Mode.bw
                         eq_refl eq_refl eq_refl eq_refl))).
Defined.

(** X9: the palette a successful [initialize] installs is the table of
    the first flag set among [monochrome], [palette4], [palette8], in that
    order, and the empty list when none is set; [bw] plays no part in the
    choice. *)
Theorem initialize_selects_palette s mode :
  snd (run (initialize mode) s) = Ok tt ->
  let pal := palette (window (fst (run (initialize mode) s))) in
  (Mode.has Mode.monochrome mode = true -> pal = Palette.monochrome (tables s)) /\
  (Mode.has Mode.monochrome mode = false -> Mode.has Mode.palette4 mode = true ->
   pal = Palette.palette4 (tables s)) /\
  (Mode.has Mode.monochrome mode = false -> Mode.has Mode.palette4 mode = false ->
   Mode.has Mode.palette8 mode = true -> pal = Palette.palette8 (tables s)) /\
  (color_flag mode = false -> pal = []).
Proof.
  rewrite initialize_run. destruct (rejected mode); [done|]. intros _ pal.
  subst pal. cbn [fst initialized window palette]. unfold selected_palette, color_flag.
  destruct (Mode.has Mode.monochrome mode), (Mode.has Mode.palette4 mode),
    (Mode.has Mode.palette8 mode); by split_and!.
Qed.

Lemma initialize_selects_palette_witness :
  let mode := Mode.or_ Mode.bw (Mode.or_ Mode.palette8 Mode.palette4) in
  snd (run (initialize mode) (sample_world 4 2)) = Ok tt /\
  palette (window (fst (run (initialize mode) (sample_world 4 2)))) =
    Palette.palette4 sample_tables.
Proof.
  split; [reflexivity|].
  exact (proj1 (proj2 (initialize_selects_palette (sample_world 4 2)
                         (Mode.or_ Mode.bw (Mode.or_ Mode.palette8 Mode.palette4)) eq_refl))
           eq_refl eq_refl).
Defined.

Lemma update_indexed_no_palette_run s m :
  _mode (window s) = Some m ->
  Mode.has Mode.bw m = false ->
  color_flag m = true ->
  palette (window s) = [] ->
  run update s =
  match _disp_buffer (window s) with
  | [] => (printed HOME s, Ok tt)
  | _ :: _ => (s, Raise ZeroDivisionError)
  end.
Proof.
  intros Hm Hbw Hix Hpal. rewrite <- indexed_flags in Hix. unfold Mode.has in Hbw, Hix.
  unfold run, update. cbv zeta.
  rewrite bind_mode_and, Hm, Hbw, bind_assoc, bind_mode_and, Hm, Hix.
  rewrite bind_assoc, bind_getattr, bind_assoc.
  destruct (_disp_buffer (window s)) as [|v buf]; [done|].
  cbn [for_in]. rewrite !bind_assoc.
  unfold indexed_pixel. rewrite bind_assoc, bind_getattr, Hpal. reflexivity.
Qed.

(** X10: in an indexed mode with an empty palette, [update] prints the
    bare cursor-home sequence for an empty buffer and raises
    [ZeroDivisionError], printing nothing, for any other. *)
Theorem update_indexed_without_palette s m :
  _mode (window s) = Some m ->
  Mode.has Mode.bw m = false ->
  color_flag m = true ->
  palette (window s) = [] ->
  (_disp_buffer (window s) = [] -> run update s = (printed HOME s, Ok tt)) /\
  (_disp_buffer (window s) <> [] -> run update s = (s, Raise ZeroDivisionError)).
Proof.
  intros Hm Hbw Hix Hpal. rewrite (update_indexed_no_palette_run s m) by done.
  by destruct (_disp_buffer (window s)).
Qed.

Lemma update_indexed_without_palette_witness :
  _mode (window sample_bare) = Some Mode.palette8 /\
  palette (window sample_bare) = [] /\
  run update sample_bare = (sample_bare, Raise ZeroDivisionError).
Proof.
  split; [reflexivity|]. split; [reflexivity|].
  apply (proj2 (update_indexed_without_palette sample_bare Mode.palette8
                  eq_refl eq_refl eq_refl eq_refl)).
  discriminate.
Defined.

(** ** What a frame depends on *)

Lemma reads_ret {A} (a : A) : reads_window (ret a).
Proof. by intros s. Qed.

Lemma reads_lift {A} (r : result A) : reads_window (lift r).
Proof. by intros s. Qed.

Lemma reads_getattr {A} (f : Window -> A) : reads_window (getattr f).
Proof. intros s. split; [done|]. intros s' Hw. unfold getattr. cbn. by rewrite Hw. Qed.

Lemma reads_bind {A B} (m : M A) (k : A -> M B) :
  reads_window m -> (forall a, reads_window (k a)) -> reads_window (bind m k).
Proof.
  intros Hm Hk s. destruct (Hm s) as [Hfst Hsnd]. split.
  - apply bind_reads; [done|]. intros a. apply Hk.
  - intros s' Hw. specialize (Hsnd s' Hw). destruct (Hm s') as [Hfst' _].
    unfold bind. destruct (m s) as [s1 r], (m s') as [s1' r'].
    cbn in Hfst, Hfst', Hsnd. subst s1 s1' r'.
    destruct r as [a|e]; [|done]. by apply Hk.
Qed.

Lemma reads_mode_and flag : reads_window (mode_and flag).
Proof.
  unfold mode_and. apply reads_bind; [apply reads_getattr|].
  intros [m|]; by intros s.
Qed.

Lemma reads_if {A} (b : bool) (m1 m2 : M A) :
  reads_window m1 -> reads_window m2 -> reads_window (if b then m1 else m2).
Proof. by destruct b. Qed.

Lemma reads_for_in {A L} (xs : list A) (body : L -> A -> M L) :
  (forall acc x, reads_window (body acc x)) ->
  forall acc, reads_window (for_in xs body acc).
Proof.
  intros Hbody. induction xs as [|x xs IH]; intros acc; cbn [for_in].
  - apply reads_ret.
  - apply reads_bind; [apply Hbody | apply IH].
Qed.

(** Breaks a computation into its reads. *)
Ltac reads :=
  repeat first
    [ apply reads_ret | apply reads_lift | apply reads_getattr | apply reads_mode_and
    | apply reads_bind; [|intros ?] | apply reads_if
    | apply reads_for_in; intros ? ? ].

Lemma reads_braille_tile yo output xo : reads_window (braille_tile yo output xo).
Proof. unfold braille_tile. reads. Qed.

Lemma reads_braille_row output yo : reads_window (braille_row output yo).
Proof. unfold braille_row. reads. Qed.

Lemma reads_indexed_pixel locals val : reads_window (indexed_pixel locals val).
Proof. unfold indexed_pixel. reads. Qed.

Lemma reads_rgb_pixel locals val : reads_window (rgb_pixel locals val).
Proof. unfold rgb_pixel. reads. Qed.

Lemma reads_update_output : reads_window update_output.
Proof.
  unfold update_output. cbv zeta. reads.
Qed.

Lemma update_prints_its_output s : update s = bind update_output print s.
Proof.
  unfold update, update_output. cbv zeta. by rewrite bind_assoc.
Qed.

Lemma update_by_output s :
  (exists out, snd (update_output s) = Ok out /\ run update s = (printed out s, Ok tt)) \/
  (exists e, snd (update_output s) = Raise e /\ run update s = (s, Raise e)).
Proof.
  unfold run. rewrite update_prints_its_output.
  destruct (reads_update_output s) as [Hfst _]. unfold bind.
  destruct (update_output s) as [s1 [out|e]]; cbn in Hfst; subst s1.
  - left. by exists out.
  - right. by exists e.
Qed.

(** X11: what [update] prints, or the exception it raises, depends on the
    class attributes only, not on what the terminal has received before:
    there is no diffing against the previous frame, and calling [update]
    again prints the same frame again. *)
Theorem update_depends_on_attributes_only s s' :
  window s' = window s ->
  snd (run update s') = snd (run update s) /\
  (forall out, run update s = (printed out s, Ok tt) ->
     run update s' = (printed out s', Ok tt) /\
     run (update ;; update) s = (printed out (printed out s), Ok tt)).
Proof.
  intros Hw.
  assert (Hsame : forall t, window t = window s ->
            snd (update_output t) = snd (update_output s)).
  { intros t Ht. by apply reads_update_output. }
  split.
  - pose proof (Hsame s' Hw) as Hs'.
    destruct (update_by_output s) as [(out & Hout & ->)|(e & He & ->)],
      (update_by_output s') as [(out' & Hout' & ->)|(e' & He' & ->)];
      cbn [snd]; congruence.
  - intros out Hrun.
    assert (Hout : snd (update_output s) = Ok out).
    { destruct (update_by_output s) as [(out0 & Hout0 & H0)|(e & _ & H0)];
        rewrite H0 in Hrun; [|done].
      injection Hrun as Hrun. apply app_inv_head in Hrun. by injection Hrun as ->. }
    assert (Hprints : forall t, window t = window s -> run update t = (printed out t, Ok tt)).
    { intros t Ht. pose proof (Hsame t Ht) as Hsnd.
      destruct (update_by_output t) as [(out0 & Hout0 & ->)|(e & He & _)]; congruence. }
    split; [by apply Hprints|].
    unfold run. change (bind update (fun _ => update) s) with
      (match update s with (s1, Ok _) => update s1 | (s1, Raise e) => (s1, Raise e) end).
    unfold run in Hrun. rewrite Hrun. by apply Hprints.
Qed.

Lemma update_depends_on_attributes_only_witness :
  let s' := printed (lit "earlier output") sample_indexed in
  window s' = window sample_indexed /\
  terminal s' <> terminal sample_indexed /\
  snd (run update s') = snd (run update sample_indexed).
Proof.
  split; [reflexivity|]. split; [discriminate|].
  exact (proj1 (update_depends_on_attributes_only sample_indexed
                  (printed (lit "earlier output") sample_indexed) eq_refl)).
Defined.

(** ** Drawing, then rendering *)

(** X12: in plain [bw] mode a write to a writable pixel changes the
    frame in one place: the frame printed after [plot x y v] is the frame
    that would have been printed without it, with the character at position
    [3 + x + y * width] (after the three of the cursor-home sequence)
    replaced by a block, or by a space when [v] is 0. *)
Theorem plot_changes_one_character s m x y v :
  _mode (window s) = Some m ->
  Mode.has Mode.bw m = true ->
  Mode.has Mode.high_res m = false ->
  buffer_sized (window s) ->
  1 <= x < _width (window s) -> 1 <= y < _height (window s) ->
  exists frame s',
    run update s = (printed frame s, Ok tt) /\
    run (plot x y v) s = (s', Ok tt) /\
    run (plot x y v ;; update) s =
      (printed (<[Z.to_nat (3 + (x + y * _width (window s))) := bw_glyph v]> frame) s', Ok tt).
Proof.
  intros Hm Hbw Hhr Hsized Hx Hy.
  pose proof (plot_index x y _ _ Hx Hy) as Hidx.
  eexists _, _. split; [by apply update_bw_run with m|].
  split; [by apply plot_inside|].
  rewrite run_bind, plot_inside by done.
  rewrite update_bw_run with (m := m) by done. cbn [window with_buffer _disp_buffer].
  rewrite list_fmap_insert.
  replace (Z.to_nat (3 + (x + y * _width (window s))))
    with (length HOME + Z.to_nat (x + y * _width (window s)))%nat by (cbn; lia).
  reflexivity.
Qed.

Lemma plot_changes_one_character_witness :
  buffer_sized (window sample_bw) /\
  terminal (fst (run update sample_bw)) =
    terminal sample_bw ++ [Stdout (HOME ++ [32; 32; 32; 32; 32; 0x2588; 0x2588; 32])] /\
  terminal (fst (run (plot 3 1 1 ;; update) sample_bw)) =
    terminal sample_bw ++ [Stdout (HOME ++ [32; 32; 32; 32; 32; 0x2588; 0x2588; 0x2588])] /\
  exists frame s',
    run update sample_bw = (printed frame sample_bw, Ok tt) /\
    run (plot 3 1 1) sample_bw = (s', Ok tt) /\
    run (plot 3 1 1 ;; update) sample_bw =
      (printed (<[Z.to_nat (3 + (3 + 1 * _width (window sample_bw))) := bw_glyph 1]> frame) s',
       Ok tt).
Proof.
  assert (Hsized : buffer_sized (window sample_bw)) by reflexivity.
  assert (Hx : 1 <= 3 < _width (window sample_bw)) by (change (1 <= 3 < 4); lia).
  assert (Hy : 1 <= 1 < _height (window sample_bw)) by (change (1 <= 1 < 2); lia).
  split; [exact Hsized|]. split; [reflexivity|]. split; [reflexivity|].
  exact (plot_changes_one_character sample_bw Mode.bw 3 1 1 eq_refl eq_refl eq_refl
           Hsized Hx Hy).
Defined.

Lemma cells_from_zeros n before k :
  cells_from n before (replicate k 0) = replicate k Blank.
Proof.
  revert before. induction k as [|k IH]; intros before; [done|].
  cbn [replicate]. by rewrite cells_from_cons, IH.
Qed.

Lemma rgb_cells_from_zeros red before k :
  rgb_cells_from red before (replicate k 0) = replicate k Dark.
Proof.
  revert before. induction k as [|k IH]; intros before; [done|].
  cbn [replicate]. by rewrite rgb_cells_from_cons, IH.
Qed.

Lemma rgb_formattable_dark k : rgb_formattable (replicate k Dark) = true.
Proof. induction k as [|k IH]; [done|]. exact IH. Qed.

Lemma concat_replicate_singleton {A} (k : nat) (c : A) :
  concat (replicate k [c]) = replicate k c.
Proof. induction k as [|k IH]; [done|]. cbn. by rewrite IH. Qed.

(** X13: outside braille mode, [clear] followed by [update] prints a
    blank frame: the cursor-home sequence and [width * height] spaces, in
    plain [bw], in full color and (given a palette) in the indexed modes
    alike. *)
Theorem clear_then_update_is_blank s m :
  _mode (window s) = Some m ->
  Mode.has Mode.bw m && Mode.has Mode.high_res m = false ->
  (Mode.has Mode.bw m = false -> color_flag m = true -> palette (window s) <> []) ->
  let n := Z.to_nat (_width (window s) * _height (window s)) in
  run (clear ;; update) s =
  (printed (HOME ++ replicate n 32) (with_buffer (replicate n 0) s), Ok tt).
Proof.
  intros Hm Hmode Hpal n. rewrite run_bind, clear_run. fold n.
  destruct (Mode.has Mode.bw m) eqn:Hbw.
  - rewrite update_bw_run with (m := m) by done.
    cbn [window with_buffer _disp_buffer]. by rewrite fmap_replicate.
  - destruct (color_flag m) eqn:Hix.
    + rewrite update_indexed_run with (m := m) by (try done; by apply Hpal).
      cbn [window with_buffer _disp_buffer palette]. unfold indexed_cells.
      rewrite cells_from_zeros, fmap_replicate. cbn [cell_text].
      do 3 f_equal. apply concat_replicate_singleton.
    + rewrite update_rgb_run with (m := m) by done.
      cbn [window with_buffer _disp_buffer]. unfold rgb_cells.
      rewrite rgb_cells_from_zeros, rgb_formattable_dark, fmap_replicate.
      cbn [rgb_cell_text]. do 3 f_equal. apply concat_replicate_singleton.
Qed.

Lemma clear_then_update_is_blank_witness :
  _disp_buffer (window sample_indexed) = [2; 2; 0; 3] /\
  run (clear ;; update) sample_indexed =
    (printed (HOME ++ [32; 32; 32; 32]) (with_buffer [0; 0; 0; 0] sample_indexed), Ok tt).
Proof.
  split; [reflexivity|].
  apply (clear_then_update_is_blank sample_indexed Mode.palette4 eq_refl eq_refl).
  discriminate.
Defined.

(** ** Braille frames of arbitrary values *)
















Lemma update_braille_initialized_witness :
  let buf := [1; 0; 1; 1;  0; 0; 0; 1;  0; 0; 0; 0;  0; 1; 0; 0] in
  terminal_sized (window (sample_world 2 1)) /\
  Forall is_bit buf /\
  braille_frame buf 4 4 = [0x2881; 0x2819] /\
  terminal (fst (run update (sample_frame 2 1 (Mode.or_ Mode.bw Mode.high_res) buf))) =
    terminal (sample_frame 2 1 (Mode.or_ Mode.bw Mode.high_res) buf) ++
    [Stdout (HOME ++ [0x2881; 0x2819])] /\
  run update (sample_frame 2 1 (Mode.or_ Mode.bw Mode.high_res) buf) =
    (printed (HOME ++ braille_frame buf 4 4)
       (sample_frame 2 1 (Mode.or_ Mode.bw Mode.high_res) buf), Ok tt).
Proof.
  assert (Hterm : terminal_sized (window (sample_world 2 1))) by (split; by vm_compute).
  assert (Hbits : Forall is_bit [1; 0; 1; 1;  0; 0; 0; 1;  0; 0; 0; 0;  0; 1; 0; 0]).
  { repeat constructor; (by left) || by right. }
  split; [exact Hterm|]. split; [exact Hbits|]. split; [reflexivity|]. split; [reflexivity|].
  exact (proj1 (update_braille_initialized (sample_world 2 1) (Mode.or_ Mode.bw Mode.high_res)
                  [1; 0; 1; 1;  0; 0; 0; 1;  0; 0; 0; 0;  0; 1; 0; 0]
                  Hterm eq_refl eq_refl eq_refl Hbits)).
Defined.

Lemma packed_byte_zeros n w xo yo : packed_byte (replicate n 0) w xo yo = 0.
Proof.
  assert (Hzero : forall x y, truthy (sub_pixel (replicate n 0) w x y) = false).
  { intros x y. unfold sub_pixel.
    destruct (replicate n 0 !! Z.to_nat (x + y * w)) as [v|] eqn:Hv; [|done].
    by apply lookup_replicate in Hv as [-> _]. }
  rewrite packed_byte_unfold. by rewrite !Hzero.
Qed.

Lemma concat_fmap_replicate {A B} (f : A -> list B) (l : list A) (k : nat) (c : B) :
  (forall x, f x = replicate k c) -> concat (f <$> l) = replicate (length l * k) c.
Proof.
  intros Hf. induction l as [|x l IH]; [done|].
  cbn [fmap list_fmap concat length]. rewrite IH, Hf.
  by rewrite <- replicate_add.
Qed.

(** X16: in braille mode, [clear] followed by [update] prints the
    cursor-home sequence and one blank braille cell U+2800 per tile. *)
Theorem clear_then_update_is_blank_braille s m c r :
  _mode (window s) = Some m ->
  Mode.has Mode.bw m = true ->
  Mode.has Mode.high_res m = true ->
  _width (window s) = 2 * c -> _height (window s) = 4 * r ->
  0 <= c -> 0 <= r ->
  run (clear ;; update) s =
  (printed (HOME ++ replicate (Z.to_nat (r * c)) 0x2800)
     (with_buffer (replicate (Z.to_nat (_width (window s) * _height (window s))) 0) s),
   Ok tt).
Proof.
  intros Hm Hbw Hhr Hw Hh Hc Hr. rewrite run_bind, clear_run.
  set (zeros := replicate _ 0). set (s' := with_buffer zeros s).
  assert (Hsized : buffer_sized (window s')).
  { unfold buffer_sized. subst s' zeros. cbn. rewrite length_replicate. nia. }
  assert (Hbits : Forall is_bit (_disp_buffer (window s'))).
  { subst s' zeros. cbn. apply Forall_forall. intros v Hv%list_elem_of_In.
    apply elem_of_replicate in Hv as [-> _]. by left. }
  destruct (update_braille_bits s' m c r Hm Hbw Hhr Hsized Hw Hh Hc Hr Hbits) as [-> _].
  do 3 f_equal. unfold braille_frame. subst s' zeros. cbn [window with_buffer _disp_buffer _width _height].
  rewrite (concat_fmap_replicate _ _ (Z.to_nat c) 0x2800).
  - rewrite Hh, length_range_multiple by lia. f_equal. lia.
  - intros yo. rewrite (concat_fmap_replicate _ _ 1%nat 0x2800).
    + rewrite Hw, length_range_multiple by lia. f_equal. lia.
    + intros xo. by rewrite packed_byte_zeros.
Qed.

Lemma clear_then_update_is_blank_braille_witness :
  let s := sample_frame 2 1 (Mode.or_ Mode.bw Mode.high_res)
             [1; 0; 1; 1;  0; 0; 0; 1;  0; 0; 0; 0;  0; 1; 0; 0] in
  _disp_buffer (window s) = [1; 0; 1; 1;  0; 0; 0; 1;  0; 0; 0; 0;  0; 1; 0; 0] /\
  terminal (fst (run (clear ;; update) s)) = terminal s ++ [Stdout (HOME ++ [0x2800; 0x2800])].
Proof.
  split; [reflexivity|].
  pose proof (clear_then_update_is_blank_braille
                (sample_frame 2 1 (Mode.or_ Mode.bw Mode.high_res)
                   [1; 0; 1; 1;  0; 0; 0; 1;  0; 0; 0; 0;  0; 1; 0; 0])
                (Mode.or_ Mode.bw Mode.high_res) 2 1
                eq_refl eq_refl eq_refl eq_refl eq_refl) as H.
  rewrite H by lia. reflexivity.
Defined.

(** ** The exceptions of [update] *)






(** ** Indexed frames: wrap-around and escape codes *)

Lemma previous_index_same_index n l l' :
  Forall2 (same_index n) l l' -> previous_index n l = previous_index n l'.
Proof.
  unfold previous_index. generalize (-1). intros prev Hl. revert prev.
  induction Hl as [|a b l l' Hab _ IH]; intros prev; [done|].
  cbn [fold_left]. unfold same_index in Hab. rewrite Hab. apply IH.
Qed.

Lemma cells_from_same_index n before before' rest rest' :
  Forall2 (same_index n) before before' ->
  Forall2 (same_index n) rest rest' ->
  cells_from n before rest = cells_from n before' rest'.
Proof.
  intros Hbefore Hrest. revert before before' Hbefore.
  induction Hrest as [|a b rest rest' Hab _ IH]; intros before before' Hbefore; [done|].
  rewrite !cells_from_cons. f_equal.
  - unfold indexed_cell. rewrite (previous_index_same_index n before before') by done.
    unfold same_index in Hab. by rewrite Hab.
  - apply IH. apply Forall2_app; [done|]. by constructor.
Qed.

(** X18: in an indexed mode pixel values count modulo the palette
    length: two buffers whose values agree modulo it, position by position,
    are printed as the same frame (so a value at or beyond the palette
    length, or a negative one, wraps around). *)
Theorem update_indexed_wraps_around s m buf' :
  _mode (window s) = Some m ->
  Mode.has Mode.bw m = false ->
  color_flag m = true ->
  palette (window s) <> [] ->
  Forall2 (same_index (Z.of_nat (length (palette (window s)))))
    (_disp_buffer (window s)) buf' ->
  exists frame,
    run update s = (printed frame s, Ok tt) /\
    run update (with_buffer buf' s) = (printed frame (with_buffer buf' s), Ok tt).
Proof.
  intros Hm Hbw Hix Hpal Hbuf. eexists. split; [by apply update_indexed_run with m|].
  rewrite update_indexed_run with (m := m) by done.
  cbn [window with_buffer _disp_buffer palette]. unfold indexed_cells.
  by rewrite <- (cells_from_same_index _ [] [] (_disp_buffer (window s)) buf').
Qed.

Lemma update_indexed_wraps_around_witness :
  _disp_buffer (window sample_indexed) = [2; 2; 0; 3] /\
  length (palette (window sample_indexed)) = 4%nat /\
  terminal (fst (run update (with_buffer [6; -2; 4; 7] sample_indexed))) =
    terminal (fst (run update sample_indexed)) /\
  exists frame,
    run update sample_indexed = (printed frame sample_indexed, Ok tt) /\
    run update (with_buffer [6; -2; 4; 7] sample_indexed) =
      (printed frame (with_buffer [6; -2; 4; 7] sample_indexed), Ok tt).
Proof.
  split; [reflexivity|]. split; [reflexivity|]. split; [reflexivity|].
  assert (Hpal : palette (window sample_indexed) <> []) by discriminate.
  apply (update_indexed_wraps_around sample_indexed Mode.palette4 [6; -2; 4; 7]
           eq_refl eq_refl eq_refl Hpal).
  repeat constructor.
Defined.

Lemma emitted_from n before rest :
  emitted_indices (cells_from n before rest) =
  squash (previous_index n before)
    (filter (fun i => i <> 0) ((fun v => v `mod` n) <$> rest)).
Proof.
  revert before. induction rest as [|v rest IH]; intros before; [done|].
  rewrite cells_from_cons. cbn [fmap list_fmap]. unfold emitted_indices in *.
  specialize (IH (before ++ [v])). rewrite previous_index_snoc in IH.
  unfold indexed_cell.
  destruct (Z.eqb_spec (v `mod` n) 0) as [Hzero|Hnonzero].
  - rewrite filter_cons_False by (by intros ?). cbn [omap list_omap]. exact IH.
  - rewrite filter_cons_True by done. cbn [squash].
    destruct (v `mod` n =? previous_index n before) eqn:Hprev; cbn [omap list_omap].
    + apply Z.eqb_eq in Hprev. by rewrite IH, Hprev.
    + by rewrite IH.
Qed.

Lemma length_squash prev l : (length (squash prev l) <= length l)%nat.
Proof.
  revert prev. induction l as [|a l IH]; intros prev; [done|].
  cbn [squash length]. destruct (a =? prev); cbn [length].
  - specialize (IH prev). lia.
  - specialize (IH a). lia.
Qed.

(** X19: the color escape strings an indexed frame contains are exactly
    those of the nonzero palette indices of the buffer, in order, with every
    index that repeats the previous nonzero one left out: pixels of index 0
    do not interrupt a run of one color. *)
Theorem update_indexed_escape_codes s m :
  _mode (window s) = Some m ->
  Mode.has Mode.bw m = false ->
  color_flag m = true ->
  palette (window s) <> [] ->
  let pal := palette (window s) in
  let n := Z.of_nat (length pal) in
  let cells := indexed_cells n (_disp_buffer (window s)) in
  let nonzero := filter (fun i => i <> 0) ((fun v => v `mod` n) <$> _disp_buffer (window s)) in
  run update s = (printed (HOME ++ concat (cell_text pal <$> cells)) s, Ok tt) /\
  emitted_indices cells = squash (-1) nonzero /\
  (length (emitted_indices cells) <= length nonzero)%nat.
Proof.
  intros Hm Hbw Hix Hpal pal n cells nonzero.
  split; [by apply update_indexed_run with m|].
  assert (Hcodes : emitted_indices cells =
            squash (-1) (filter (fun i => i <> 0)
                           ((fun v => v `mod` n) <$> _disp_buffer (window s)))).
  { subst cells. unfold indexed_cells. by rewrite emitted_from. }
  split; [done|]. rewrite Hcodes. apply length_squash.
Qed.

Lemma update_indexed_escape_codes_witness :
  let s := with_buffer [2; 0; 2; 6; 3; 3; 0; 1; 2] sample_indexed in
  emitted_indices (indexed_cells 4 (_disp_buffer (window s))) = [2; 3; 1; 2] /\
  emitted_indices (indexed_cells 4 (_disp_buffer (window s))) =
    squash (-1) (filter (fun i => i <> 0) ((fun v => v `mod` 4) <$> _disp_buffer (window s))).
Proof.
  split; [reflexivity|].
  assert (Hpal : palette (window (with_buffer [2; 0; 2; 6; 3; 3; 0; 1; 2] sample_indexed)) <> [])
    by discriminate.
  exact (proj1 (proj2 (update_indexed_escape_codes
                         (with_buffer [2; 0; 2; 6; 3; 3; 0; 1; 2] sample_indexed)
                         Mode.palette4 eq_refl eq_refl eq_refl Hpal))).
Defined.

(** ** Full-color frames of arbitrary values *)

Lemma red_shifted_byte val : 0 <= red_shifted val < 256 <-> packed_rgb val.
Proof.
  unfold red_shifted, packed_rgb. rewrite Z.shiftr_div_pow2 by lia.
  change (2 ^ 16) with 65536. change (2 ^ 24) with 16777216.
  pose proof (Z.div_mod val 65536 ltac:(lia)).
  pose proof (Z.mod_pos_bound val 65536 ltac:(lia)). lia.
Qed.

Lemma formattable_iff n : formattable n = true <-> Z.abs n < 10 ^ int_max_str_digits.
Proof. apply Z.ltb_lt. Qed.

(** The smallest number of more digits than the limit, as a red
    component: the pixel value starts a color, and its red component cannot
    be formatted. *)
Lemma limit_shifted :
  let val := Z.shiftl (10 ^ int_max_str_digits) 16 in
  val <> 0 /\ val <> -1 /\ formattable (Z.shiftr val 16) = false.
Proof.
  assert (Hpos : 0 < 10 ^ int_max_str_digits) by (apply Z.pow_pos_nonneg; by vm_compute).
  cbv zeta. split_and!.
  - rewrite Z.shiftl_eq_0_iff by lia. lia.
  - pose proof (proj2 (Z.shiftl_nonneg (10 ^ int_max_str_digits) 16)). lia.
  - rewrite Z.shiftr_shiftl_l by lia. change (16 - 16) with 0. rewrite Z.shiftl_0_r.
    unfold formattable. apply Z.ltb_ge. lia.
Qed.

(** X20: full-color [update], whatever integers the buffer holds, raises
    nothing but [ValueError], and that exactly when the red component
    [val >> 16] of a pixel that starts a new color (a nonzero value other
    than the previous nonzero one) has more than 4300 digits; then nothing
    is printed.  Otherwise, and so whenever no pixel value has more than
    4300 digits, it prints the cursor-home sequence and, per pixel, a space
    for 0, a bare block for a repetition of the previous nonzero value, and
    else the escape sequence with red = [val >> 16],
    green = [val >> 8 & 0xff], blue = [val & 0xff] and a block.  Green and
    blue are always between 0 and 255; red is exactly when
    [0 <= val < 2^24]. *)
Theorem update_rgb_any_values s m :
  _mode (window s) = Some m ->
  Mode.has Mode.bw m = false ->
  color_flag m = false ->
  let buf := _disp_buffer (window s) in
  let cells := rgb_cells red_shifted buf in
  let starts_color k val :=
    buf !! k = Some val /\ val <> 0 /\ val <> previous_value (take k buf) in
  ((forall k val, starts_color k val -> formattable (Z.shiftr val 16) = true) ->
   run update s = (printed (HOME ++ concat (rgb_cell_text <$> cells)) s, Ok tt)) /\
  ((exists k val, starts_color k val /\ formattable (Z.shiftr val 16) = false) ->
   run update s = (s, Raise ValueError)) /\
  (Forall (fun val => Z.abs val < 10 ^ int_max_str_digits) buf ->
   run update s = (printed (HOME ++ concat (rgb_cell_text <$> cells)) s, Ok tt)) /\
  (forall e, snd (run update s) = Raise e -> e = ValueError) /\
  (forall n, formattable n = true <-> Z.abs n < 10 ^ int_max_str_digits) /\
  (forall k val, buf !! k = Some val ->
     cells !! k =
       Some (if val =? 0 then Dark
             else if val =? previous_value (take k buf) then Same
             else Lit (Z.shiftr val 16) (Z.land (Z.shiftr val 8) 0xFF) (Z.land val 0xFF))) /\
  (forall val,
     0 <= Z.land (Z.shiftr val 8) 0xFF < 256 /\ 0 <= Z.land val 0xFF < 256 /\
     (0 <= Z.shiftr val 16 < 256 <-> 0 <= val < 2 ^ 24)).
Proof.
  intros Hm Hbw Hix buf cells starts_color.
  pose proof (update_rgb_run s m Hm Hbw Hix) as Hrun. fold buf cells in Hrun.
  assert (Hprints :
    (forall k val, starts_color k val -> formattable (Z.shiftr val 16) = true) ->
    run update s = (printed (HOME ++ concat (rgb_cell_text <$> cells)) s, Ok tt)).
  { intros Hall. rewrite Hrun.
    assert (Hfmt : rgb_formattable cells = true).
    { apply (rgb_formattable_spec red_shifted). intros k val Hk Hzero Hprev.
      by apply (Hall k val). }
    by rewrite Hfmt. }
  split_and!.
  - exact Hprints.
  - intros (k & val & (Hk & Hzero & Hprev) & Hred). rewrite Hrun.
    assert (Hfmt : rgb_formattable cells = false).
    { apply (rgb_unformattable_spec red_shifted). by exists k, val. }
    by rewrite Hfmt.
  - intros Hall. apply Hprints. intros k val (Hk & _).
    apply formattable_shiftr; [lia|]. apply formattable_iff.
    rewrite Forall_forall in Hall. apply Hall, list_elem_of_In.
    by apply list_elem_of_lookup_2 with k.
  - intros e. rewrite Hrun. destruct (rgb_formattable cells); cbn [snd]; congruence.
  - apply formattable_iff.
  - intros k val Hk. subst cells. by rewrite rgb_cells_lookup, Hk.
  - intros val. split_and!; try apply land_byte. apply red_shifted_byte.
Qed.

Lemma update_rgb_any_values_witness :
  let s := with_buffer [-256] sample_red in
  let s' := with_buffer [Z.shiftl (10 ^ int_max_str_digits) 16] sample_red in
  _mode (window s) = Some 0%N /\
  run update s = (printed (HOME ++ escape_text (-1) 255 0) s, Ok tt) /\
  run update s' = (s', Raise ValueError).
Proof.
  split; [reflexivity|]. split.
  - apply (proj1 (proj2 (proj2 (update_rgb_any_values (with_buffer [-256] sample_red) 0%N
                                  eq_refl eq_refl eq_refl)))).
    repeat constructor.
  - apply (proj1 (proj2 (update_rgb_any_values
                           (with_buffer [Z.shiftl (10 ^ int_max_str_digits) 16] sample_red) 0%N
                           eq_refl eq_refl eq_refl))).
    exists 0%nat, (Z.shiftl (10 ^ int_max_str_digits) 16).
    destruct limit_shifted as (Hzero & Hprev & Hred). by split_and!.
Defined.

Lemma previous_value_sentinel l :
  Forall (fun v => v = 0 \/ v = -1) l -> previous_value l = -1.
Proof.
  induction l as [|v l IH] using rev_ind; [done|].
  intros [Hl Hv]%Forall_app. rewrite previous_value_snoc, IH by done.
  apply Forall_singleton in Hv as [-> | ->]; done.
Qed.

(** X21: the start value -1 of [prev_val] is itself a possible pixel
    value: in full-color mode a pixel of value -1 that only pixels of value
    0 or -1 precede has a bare block for its cell, with no escape sequence
    setting its color.  The frame of the cells is printed when every
    component can be formatted, so whenever no pixel value has more than
    4300 digits, and [ValueError] is raised otherwise; a buffer that holds
    nothing but 0 and -1 is printed as spaces and bare blocks. *)
Theorem update_rgb_sentinel_pixel s m k :
  _mode (window s) = Some m ->
  Mode.has Mode.bw m = false ->
  color_flag m = false ->
  _disp_buffer (window s) !! k = Some (-1) ->
  Forall (fun v => v = 0 \/ v = -1) (take k (_disp_buffer (window s))) ->
  let buf := _disp_buffer (window s) in
  let cells := rgb_cells red_shifted buf in
  cells !! k = Some Same /\
  rgb_cell_text Same = BLOCK /\
  run update s =
    (if rgb_formattable cells
     then (printed (HOME ++ concat (rgb_cell_text <$> cells)) s, Ok tt)
     else (s, Raise ValueError)) /\
  (Forall (fun val => Z.abs val < 10 ^ int_max_str_digits) buf ->
   rgb_formattable cells = true) /\
  (Forall (fun v => v = 0 \/ v = -1) buf ->
   rgb_formattable cells = true /\ Forall (fun c => c = Dark \/ c = Same) cells).
Proof.
  intros Hm Hbw Hix Hk Hbefore buf cells. split_and!.
  - subst cells buf. rewrite rgb_cells_lookup, Hk. cbn. unfold rgb_cell_of.
    by rewrite previous_value_sentinel.
  - done.
  - by apply update_rgb_run with m.
  - intros Hall. apply (rgb_formattable_spec red_shifted). intros k' val Hk' _ _.
    apply formattable_shiftr; [lia|]. apply formattable_iff.
    rewrite Forall_forall in Hall. apply Hall, list_elem_of_In.
    by apply list_elem_of_lookup_2 with k'.
  - intros Hall.
    assert (Hcell : forall k' val, buf !! k' = Some val ->
              rgb_cell_of red_shifted (take k' buf) val = Dark \/
              rgb_cell_of red_shifted (take k' buf) val = Same).
    { intros k' val Hk'. unfold rgb_cell_of.
      rewrite previous_value_sentinel by by apply Forall_take.
      rewrite Forall_forall in Hall.
      destruct (Hall val) as [-> | ->]; [|by left|by right].
      apply list_elem_of_In. by apply list_elem_of_lookup_2 with k'. }
    split.
    + apply (rgb_formattable_spec red_shifted). intros k' val Hk' Hzero Hprev.
      destruct (Hcell k' val Hk') as [H|H]; unfold rgb_cell_of in H;
        apply Z.eqb_neq in Hzero, Hprev; by rewrite Hzero, Hprev in H.
    + apply Forall_forall. intros c [k' Hc]%list_elem_of_In%list_elem_of_lookup.
      subst cells. rewrite rgb_cells_lookup in Hc.
      destruct (buf !! k') as [val|] eqn:Hk'; [|done].
      apply (inj Some) in Hc as <-. by apply Hcell.
Qed.

Lemma update_rgb_sentinel_pixel_witness :
  let s := with_buffer [-1] sample_red in
  rgb_cells red_shifted (_disp_buffer (window s)) !! 0%nat = Some Same /\
  run update s = (printed (HOME ++ BLOCK) s, Ok tt).
Proof.
  pose proof (update_rgb_sentinel_pixel (with_buffer [-1] sample_red) 0%N 0
                eq_refl eq_refl eq_refl eq_refl (Forall_nil_2 _)) as (Hcell & _ & Hrun & _).
  split; [exact Hcell|]. rewrite Hrun. reflexivity.
Defined.

(** ** The earlier draft *)

Lemma draft_initialize_run mode s :
  run (Draft.initialize mode) s =
  if (mode =? Mode.high_res)%N
  then (with_mode (Some mode) s, Raise NotImplementedError)
  else (with_buffer
          (replicate (Z.to_nat (_terminal_width (window s) * _terminal_height (window s))) 0)
          {| window :=
               {| _mode := Some mode;
                  _terminal_width := _terminal_width (window s);
                  _terminal_height := _terminal_height (window s);
                  _width := _terminal_width (window s);
                  _height := _terminal_height (window s);
                  _disp_buffer := _disp_buffer (window s);
                  palette := palette (window s) |};
             tables := tables s;
             terminal := terminal s |}, Ok tt).
Proof.
  unfold run, Draft.initialize, set_mode, set_width, set_height, set_disp_buffer.
  rewrite bind_with_window.
  destruct (N.eqb_spec mode Mode.high_res) as [->|Hne].
  - reflexivity.
  - rewrite andb_false_r. step. cbn [negb]. step. by rewrite zeros.
Qed.

(** X22: the draft's [initialize] never reaches its doubled size: it
    raises exactly when the mode is [high_res] alone, and for every other
    mode, [bw | high_res] included, it leaves the virtual size equal to the
    terminal size with a zero buffer of that many entries; the palette and
    the terminal are not touched. *)
Theorem draft_initialize_never_doubles s mode :
  (snd (run (Draft.initialize mode) s) = Raise NotImplementedError <->
   mode = Mode.high_res) /\
  (snd (run (Draft.initialize mode) s) = Ok tt <-> mode <> Mode.high_res) /\
  (mode <> Mode.high_res ->
   let w := window (fst (run (Draft.initialize mode) s)) in
   _mode w = Some mode /\
   _width w = _terminal_width (window s) /\
   _height w = _terminal_height (window s) /\
   _disp_buffer w =
     replicate (Z.to_nat (_terminal_width (window s) * _terminal_height (window s))) 0 /\
   palette w = palette (window s) /\
   terminal (fst (run (Draft.initialize mode) s)) = terminal s).
Proof.
  rewrite draft_initialize_run.
  destruct (N.eqb_spec mode Mode.high_res) as [->|Hne]; cbn [snd fst].
  - split_and!; [done|split; [discriminate|by intros []]|by intros []].
  - split_and!; [split; [discriminate|done]|done|done].
Qed.

Lemma draft_initialize_never_doubles_witness :
  let mode := Mode.or_ Mode.bw Mode.high_res in
  let w := window (fst (run (Draft.initialize mode) (sample_world 4 2))) in
  _width w = 4 /\ _height w = 2 /\ length (_disp_buffer w) = 8%nat /\
  _width (window (fst (run (initialize mode) (sample_world 4 2)))) = 8.
Proof.
  assert (Hne : Mode.or_ Mode.bw Mode.high_res <> Mode.high_res) by discriminate.
  pose proof (proj2 (proj2 (draft_initialize_never_doubles (sample_world 4 2)
                              (Mode.or_ Mode.bw Mode.high_res))) Hne) as H.
  split; [exact (proj1 (proj2 H))|]. split; [exact (proj1 (proj2 (proj2 H)))|].
  split; reflexivity.
Defined.

(** ** Where a tile and a pixel end up in a braille frame *)

Lemma range_lookup step n k :
  0 < step -> 0 <= k < n -> range 0 (step * n) step !! Z.to_nat k = Some (step * k).
Proof.
  intros Hstep Hk. unfold range. rewrite list_lookup_fmap, lookup_seqZ_lt.
  - cbn. f_equal. lia.
  - replace (step * n - 0 + step - 1) with (n * step + (step - 1)) by lia.
    rewrite Z.div_add_l, Z.div_small; lia.
Qed.

Lemma lookup_concat_uniform {B} (ls : list (list B)) (k i j : nat) :
  Forall (fun l => length l = k) ls -> (i < k)%nat ->
  concat ls !! (j * k + i)%nat = ls !! j ≫= (fun l => l !! i).
Proof.
  intros Hls Hi. revert j. induction Hls as [|l ls Hl _ IH]; intros j.
  - by destruct j.
  - cbn [concat]. destruct j as [|j].
    + cbn. by rewrite lookup_app_l by lia.
    + rewrite lookup_app_r by (cbn; lia).
      replace (S j * k + i - length l)%nat with (j * k + i)%nat by (cbn; lia).
      apply IH.
Qed.

Lemma concat_singletons {A B} (g : A -> B) (l : list A) :
  concat ((fun x => [g x]) <$> l) = g <$> l.
Proof. induction l as [|x l IH]; [done|]. cbn. by rewrite IH. Qed.

(** The character of the tile in column [i], row [j] of the grid sits at
    position [j * c + i] of the frame. *)
Lemma braille_frame_lookup buf c r i j :
  0 <= i < c -> 0 <= j < r ->
  braille_frame buf (2 * c) (4 * r) !! Z.to_nat (j * c + i) =
  Some (0x2800 + packed_byte buf (2 * c) (2 * i) (4 * j)).
Proof.
  intros Hi Hj. unfold braille_frame.
  replace (Z.to_nat (j * c + i)) with (Z.to_nat j * Z.to_nat c + Z.to_nat i)%nat by nia.
  etrans; [apply (lookup_concat_uniform _ (Z.to_nat c)); [|lia]|].
  - apply Forall_fmap, Forall_forall. intros yo _. cbn.
    rewrite concat_singletons, length_fmap. apply length_range_multiple; lia.
  - rewrite list_lookup_fmap, range_lookup by lia. cbn.
    rewrite concat_singletons, list_lookup_fmap, range_lookup by lia. done.
Qed.

Lemma sub_pixel_single buf w h x y v a b :
  Z.of_nat (length buf) = w * h ->
  Forall (eq 0) buf ->
  0 <= x < w -> 0 <= y < h -> 0 <= a < w -> 0 <= b ->
  sub_pixel (<[Z.to_nat (x + y * w) := v]> buf) w a b =
  if (a =? x) && (b =? y) then v else 0.
Proof.
  intros Hlen Hzero Hx Hy Ha Hb. unfold sub_pixel.
  destruct (Z.eqb_spec a x) as [->|Hax]; [destruct (Z.eqb_spec b y) as [->|Hby]|]; cbn [andb].
  - rewrite list_lookup_insert_eq; [done|nia].
  - rewrite list_lookup_insert_ne.
    + destruct (buf !! _) as [u|] eqn:Hu; [|done]. cbn.
      rewrite Forall_forall in Hzero. symmetry. apply Hzero, list_elem_of_In.
      by eapply list_elem_of_lookup_2.
    + intros Heq. assert (x + y * w = x + b * w) by nia. nia.
  - rewrite list_lookup_insert_ne.
    + destruct (buf !! _) as [u|] eqn:Hu; [|done]. cbn.
      rewrite Forall_forall in Hzero. symmetry. apply Hzero, list_elem_of_In.
      by eapply list_elem_of_lookup_2.
    + intros Heq. assert (Heq' : x + y * w = a + b * w) by nia.
      destruct (plot_index_inj x y a b w); [lia..|]. lia.
Qed.

(** The byte of a tile of a grid whose only lit pixel is [(x, y)]. *)
Lemma packed_byte_single buf w h x y i j :
  Z.of_nat (length buf) = w * h ->
  Forall (eq 0) buf ->
  0 <= x < w -> 0 <= y < h -> 0 <= i -> 2 * i + 1 < w -> 0 <= j ->
  packed_byte (<[Z.to_nat (x + y * w) := 1]> buf) w (2 * i) (4 * j) =
  if (i =? x `div` 2) && (j =? y `div` 4)
  then 2 ^ dot_bit (x `mod` 2) (y `mod` 4) else 0.
Proof.
  intros Hlen Hzero Hx Hy Hi Hi' Hj. rewrite packed_byte_unfold.
  rewrite !(sub_pixel_single buf w h x y 1) by (try done; lia).
  pose proof (Z.div_mod x 2 ltac:(lia)) as Hxd.
  pose proof (Z.mod_pos_bound x 2 ltac:(lia)) as Hxm.
  pose proof (Z.div_mod y 4 ltac:(lia)) as Hyd.
  pose proof (Z.mod_pos_bound y 4 ltac:(lia)) as Hym.
  set (qx := x `div` 2) in *. set (dx := x `mod` 2) in *.
  set (qy := y `div` 4) in *. set (dy := y `mod` 4) in *.
  assert (Hdx : dx = 0 \/ dx = 1) by lia.
  assert (Hdy : dy = 0 \/ dy = 1 \/ dy = 2 \/ dy = 3) by lia.
  unfold dot_bit.
  repeat match goal with
         | |- context [?a =? ?b] =>
             destruct (Z.eqb_spec a b); try lia
         end.
  all: cbn [andb truthy Z.eqb negb]; try lia.
  all: destruct Hdx as [Hdx|Hdx], Hdy as [Hdy|[Hdy|[Hdy|Hdy]]]; rewrite ?Hdx, ?Hdy;
    (reflexivity || lia).
Qed.

(** X23: drawing in braille mode lights the right dot: on a cleared
    braille grid of [c] by [r] tiles, [plot x y 1] on a writable pixel
    followed by [update] prints [r * c] characters, all the blank cell
    U+2800 except the one of the tile in column [x / 2], row [y / 4], at
    position [(y / 4) * c + x / 2], which has exactly the dot of offset
    [(x mod 2, y mod 4)]. *)
Theorem plot_lights_one_dot s m c r x y :
  _mode (window s) = Some m ->
  Mode.has Mode.bw m = true ->
  Mode.has Mode.high_res m = true ->
  _width (window s) = 2 * c -> _height (window s) = 4 * r ->
  buffer_sized (window s) ->
  Forall (eq 0) (_disp_buffer (window s)) ->
  1 <= x < _width (window s) -> 1 <= y < _height (window s) ->
  exists frame s',
    run (plot x y 1 ;; update) s = (printed (HOME ++ frame) s', Ok tt) /\
    Z.of_nat (length frame) = r * c /\
    forall i j, 0 <= i < c -> 0 <= j < r ->
      frame !! Z.to_nat (j * c + i) =
      Some (if (i =? x `div` 2) && (j =? y `div` 4)
            then 0x2800 + 2 ^ dot_bit (x `mod` 2) (y `mod` 4)
            else 0x2800).
Proof.
  intros Hm Hbw Hhr Hw Hh Hsized Hzero Hx Hy.
  set (buf' := <[Z.to_nat (x + y * _width (window s)) := 1]> (_disp_buffer (window s))).
  set (s' := with_buffer buf' s).
  assert (Hsized' : buffer_sized (window s')).
  { apply with_buffer_sized; [|done]. apply length_insert. }
  assert (Hbits : Forall is_bit (_disp_buffer (window s'))).
  { subst s' buf'. cbn. apply Forall_insert; [|by right].
    eapply Forall_impl; [|exact Hzero]. intros v <-. by left. }
  destruct (update_braille_bits s' m c r Hm Hbw Hhr Hsized' Hw Hh ltac:(lia) ltac:(lia) Hbits)
    as [Hrun Hcount].
  eexists _, s'. split_and!.
  - rewrite run_bind, plot_inside by done. exact Hrun.
  - rewrite Hcount. subst s'. cbn [window with_buffer _width _height]. rewrite Hw, Hh.
    by rewrite !(Z.mul_comm _ c), !(Z.mul_comm _ r), !Z.div_mul by lia.
  - intros i j Hi Hj. subst s' buf'. cbn [window with_buffer _width _height _disp_buffer].
    unfold buffer_sized in Hsized. rewrite Hw, Hh in *.
    rewrite braille_frame_lookup by done. f_equal.
    rewrite (packed_byte_single _ (2 * c) (4 * r)) by (try done; lia).
    destruct (_ && _); lia.
Qed.

Lemma plot_lights_one_dot_witness :
  let s := fst (run (initialize (Mode.or_ Mode.bw Mode.high_res)) (sample_world 2 1)) in
  _width (window s) = 4 /\ _height (window s) = 4 /\
  terminal (fst (run (plot 3 2 1 ;; update) s)) =
    terminal s ++ [Stdout (HOME ++ [0x2800; 0x2820])] /\
  exists frame s',
    run (plot 3 2 1 ;; update) s = (printed (HOME ++ frame) s', Ok tt) /\
    Z.of_nat (length frame) = 1 * 2 /\
    forall i j, 0 <= i < 2 -> 0 <= j < 1 ->
      frame !! Z.to_nat (j * 2 + i) =
      Some (if (i =? 3 `div` 2) && (j =? 2 `div` 4)
            then 0x2800 + 2 ^ dot_bit (3 `mod` 2) (2 `mod` 4)
            else 0x2800).
Proof.
  split; [reflexivity|]. split; [reflexivity|]. split; [reflexivity|].
  apply (plot_lights_one_dot
           (fst (run (initialize (Mode.or_ Mode.bw Mode.high_res)) (sample_world 2 1)))
           (Mode.or_ Mode.bw Mode.high_res) 2 1 3 2 eq_refl eq_refl eq_refl eq_refl eq_refl).
  - reflexivity.
  - repeat constructor.
  - change (1 <= 3 < 4). lia.
  - change (1 <= 2 < 4). lia.
Defined.
